(** * Interaction-state management of the S2 sheet: a shallow embedding

    The development follows three sources of the repository:
    - the [RootInteraction] class (the interaction coordinator),
    - the [ColumnTextClick] handler,
    - the layout helper [handleLayoutHook].

    Mutable objects become fields of a [World] record that is threaded
    through every method; calls into the rendering host (drawing, cell
    updates, tooltips, emitted events) are appended to a trace. *)

From Stdlib Require Import ZArith String.
From stdpp Require Import base option list gmap sets strings.

Local Open Scope Z_scope.

(** ** Constants ([common/constant]) *)

(** Only the members the sources name are listed; the remaining members of
    each enumeration are kept apart by their tag. *)

Module InteractionStateName.
Inductive t :=
  | SELECTED
  | ALL_SELECTED
  | ROW_CELL_BRUSH_SELECTED
  | COL_CELL_BRUSH_SELECTED
  | DATA_CELL_BRUSH_SELECTED
  | HOVER_FOCUS
  | HOVER
  | UNSELECTED
  | Other (tag : string).

#[global] Instance eq_dec : EqDecision t.
Proof. solve_decision. Defined.
End InteractionStateName.

Module InterceptType.
Inductive t :=
  | HOVER
  | Other (tag : string).

#[global] Instance eq_dec : EqDecision t.
Proof. solve_decision. Defined.

Definition encode (i : t) : option string :=
  match i with HOVER => None | Other s => Some s end.
Definition decode (o : option string) : t :=
  match o with None => HOVER | Some s => Other s end.

#[global] Instance countable : Countable t.
Proof. apply (inj_countable' encode decode). by intros []. Defined.
End InterceptType.

Module CellType.
Inductive t :=
  | DATA_CELL
  | ROW_CELL
  | COL_CELL
  | Other (tag : string).

#[global] Instance eq_dec : EqDecision t.
Proof. solve_decision. Defined.
End CellType.

Module InteractionName.
Inductive t :=
  | CORNER_CELL_CLICK
  | DATA_CELL_CLICK
  | ROW_COLUMN_CLICK
  | ROW_TEXT_CLICK
  | MERGED_CELLS_CLICK
  | HOVER
  | DATA_CELL_BRUSH_SELECTION
  | ROW_CELL_BRUSH_SELECTION
  | COL_CELL_BRUSH_SELECTION
  | COL_ROW_RESIZE
  | DATA_CELL_MULTI_SELECTION
  | RANGE_SELECTION
  | SELECTED_CELL_MOVE.
End InteractionName.

(** The handler classes [registerInteractions] instantiates: the built-in
    ones, and [CustomClass] for a class of the application's own.  A custom
    interaction may hold any of them. *)
Inductive InteractionClass :=
  | CornerCellClick
  | DataCellClick
  | RowColumnClick
  | RowTextClick
  | MergedCellClick
  | HoverEvent
  | DataCellBrushSelection
  | RowCellBrushSelection
  | ColCellBrushSelection
  | RowColumnResize
  | DataCellMultiSelection
  | RangeSelection
  | SelectedCellMove
  | CustomClass (name : string).

(** ** Data ([common/interface]) *)

(** A layout node or view meta.  [x] and [y] are canvas coordinates that the
    code only tests for presence and passes on.  [belongsCell] refers to the
    cell object the node is drawn by. *)
Module Node.
Record t := mk {
  id : string;
  x : option Z;
  y : option Z;
  belongsCell : option nat;
}.
End Node.

(** A cell instance.  [getMeta] is [None] when the cell has no [getMeta]
    method or the method answers nothing ([cell?.getMeta?.()]). *)
Module S2CellType.
Record t := mk {
  ref : nat;
  cellType : CellType.t;
  getMeta : option Node.t;
}.
End S2CellType.

Module CellMeta.
Record t := mk {
  id : string;
  colIndex : Z;
  rowIndex : Z;
  type : CellType.t;
}.
End CellMeta.

(** [onUpdateCells] is a caller-supplied function; it is named by a number
    and run by the host environment. *)
Module InteractionStateInfo.
Record t := mk {
  stateName : option InteractionStateName.t;
  cells : option (list CellMeta.t);
  interactedCells : option (list S2CellType.t);
  nodes : option (list Node.t);
  force : option bool;
  onUpdateCells : option nat;
}.

Definition with_interactedCells (v : option (list S2CellType.t)) (s : t) : t :=
  mk (stateName s) (cells s) v (nodes s) (force s) (onUpdateCells s).
End InteractionStateInfo.

Module ChangeCellOptions.
Record t := mk {
  cell : option S2CellType.t;
  stateName : option InteractionStateName.t;
  isMultiSelection : option bool;
  scrollIntoView : option bool;
}.
End ChangeCellOptions.

(** Interaction options: a switch is a boolean, an options object, or
    absent. *)
Inductive Switch (A : Type) :=
  | Absent
  | Flag (b : bool)
  | Object (o : A).
Arguments Absent {A}.
Arguments Flag {A} b.
Arguments Object {A} o.

Module BrushSelectionOptions.
Record t := mk {
  dataCell : option bool;
  rowCell : option bool;
  colCell : option bool;
}.
End BrushSelectionOptions.

Module BrushSelectionInfo.
Record t := mk {
  dataCellBrushSelection : option bool;
  rowCellBrushSelection : option bool;
  colCellBrushSelection : option bool;
}.
End BrushSelectionInfo.

Module InteractionCellHighlightOptions.
Record t := mk {
  rowHeader : option bool;
  colHeader : option bool;
  currentRow : option bool;
  currentCol : option bool;
}.
End InteractionCellHighlightOptions.

Module CustomInteraction.
Record t := mk {
  key : string;
  interaction : InteractionClass;
}.
End CustomInteraction.

Module InteractionOptions.
Record t := mk {
  resize : Switch unit;
  brushSelection : Switch BrushSelectionOptions.t;
  multiSelection : Switch unit;
  rangeSelection : Switch unit;
  selectedCellMove : Switch unit;
  customInteractions : option (list CustomInteraction.t);
  selectedCellHighlight : Switch InteractionCellHighlightOptions.t;
  hoverHighlight : Switch InteractionCellHighlightOptions.t;
}.
End InteractionOptions.

Module OffsetConfig.
Record t := mk {
  value : option Z;
  animate : option bool;
}.
End OffsetConfig.

Module ScrollOffsetConfig.
Record t := mk {
  rowHeaderOffsetX : option OffsetConfig.t;
  offsetX : option OffsetConfig.t;
  offsetY : option OffsetConfig.t;
}.
End ScrollOffsetConfig.

(** What the class reads from [spreadsheet.facet]. *)
Module Facet.
Record t := mk {
  getCells : list S2CellType.t;
  getDataCells : list S2CellType.t;
  getHeaderCells : list string -> list S2CellType.t;
  getCellChildrenNodes : S2CellType.t -> list Node.t;
  hRowScrollBar : bool;
  hScrollBar : bool;
  vScrollBar : bool;
  scrollX : Z;
  scrollY : Z;
  rowHeaderScrollX : Z;
}.
End Facet.

(** ** The world the interaction lives in *)

(** The value kept under [INTERACTION_STATE_INFO_KEY] is an object
    reference: either the instance's own [defaultState] object (what
    [resetState] stores) or some other state object. *)
Inductive StateRef :=
  | DefaultState
  | StateObject (s : InteractionStateInfo.t).

(** Modelled from the spec: the [EventController] class is not among the
    sources; the coordinator only constructs it ("registered interaction
    handlers ... event dispatch") and clears it, so it is one of two
    states. *)
Inductive EventController :=
  | Bound
  | Cleared.

(** Listeners of the [window] object. *)
Inductive Listener :=
  | onTriggerInteractionsResetEffect
  | Foreign (n : nat).

#[global] Instance Listener_eq_dec : EqDecision Listener.
Proof. solve_decision. Defined.

(** Calls that leave the class, in the order they are made. *)
Inductive Effect :=
  | Render
  | HideTooltip
  | Update (cell : S2CellType.t)
  | HideInteractionShape (cell : S2CellType.t)
  | UpdateByState (name : InteractionStateName.t) (cell : nat)
  | UpdateScrollOffset (config offsetConfig : ScrollOffsetConfig.t)
  | Emit_GLOBAL_SELECTED (cells : list S2CellType.t)
  | Construct (cls : InteractionClass)
  | HandlerReset (key : string)
  | ForeignListener (n : nat).

Record World := mkWorld {
  (* spreadsheet *)
  store : option StateRef;
  options : InteractionOptions.t;
  facet : Facet.t;
  isHierarchyTreeType : bool;
  trace : list Effect;
  (* window and utilities *)
  isMobile : bool;
  listeners : list (string * Listener);
  timers : gset Z;
  (* the RootInteraction instance *)
  interactions : list (string * InteractionClass);
  intercepts : gset InterceptType.t;
  hoverTimer : option Z;
  eventController : EventController;
  defaultState : InteractionStateInfo.t;
}.

Definition set_store v (w : World) : World :=
  mkWorld v (options w) (facet w) (isHierarchyTreeType w) (trace w)
    (isMobile w) (listeners w) (timers w) (interactions w) (intercepts w)
    (hoverTimer w) (eventController w) (defaultState w).
Definition set_trace v (w : World) : World :=
  mkWorld (store w) (options w) (facet w) (isHierarchyTreeType w) v
    (isMobile w) (listeners w) (timers w) (interactions w) (intercepts w)
    (hoverTimer w) (eventController w) (defaultState w).
Definition set_listeners v (w : World) : World :=
  mkWorld (store w) (options w) (facet w) (isHierarchyTreeType w) (trace w)
    (isMobile w) v (timers w) (interactions w) (intercepts w)
    (hoverTimer w) (eventController w) (defaultState w).
Definition set_timers v (w : World) : World :=
  mkWorld (store w) (options w) (facet w) (isHierarchyTreeType w) (trace w)
    (isMobile w) (listeners w) v (interactions w) (intercepts w)
    (hoverTimer w) (eventController w) (defaultState w).
Definition set_interactions v (w : World) : World :=
  mkWorld (store w) (options w) (facet w) (isHierarchyTreeType w) (trace w)
    (isMobile w) (listeners w) (timers w) v (intercepts w)
    (hoverTimer w) (eventController w) (defaultState w).
Definition set_intercepts v (w : World) : World :=
  mkWorld (store w) (options w) (facet w) (isHierarchyTreeType w) (trace w)
    (isMobile w) (listeners w) (timers w) (interactions w) v
    (hoverTimer w) (eventController w) (defaultState w).
Definition set_hoverTimer v (w : World) : World :=
  mkWorld (store w) (options w) (facet w) (isHierarchyTreeType w) (trace w)
    (isMobile w) (listeners w) (timers w) (interactions w) (intercepts w)
    v (eventController w) (defaultState w).
Definition set_eventController v (w : World) : World :=
  mkWorld (store w) (options w) (facet w) (isHierarchyTreeType w) (trace w)
    (isMobile w) (listeners w) (timers w) (interactions w) (intercepts w)
    (hoverTimer w) v (defaultState w).
Definition set_defaultState v (w : World) : World :=
  mkWorld (store w) (options w) (facet w) (isHierarchyTreeType w) (trace w)
    (isMobile w) (listeners w) (timers w) (interactions w) (intercepts w)
    (hoverTimer w) (eventController w) v.

(** One call into the host. *)
Definition perform (e : Effect) (w : World) : World :=
  set_trace (trace w ++ [e]) w.

(** [xs.forEach(f)] for a state-changing [f]. *)
Definition forEach {A} (f : A -> World -> World) (xs : list A) (w : World)
  : World :=
  foldl (fun acc a => f a acc) w xs.

(** ** Exceptions and unfinished calls *)

Inductive Exn := TypeError.

Inductive Completion (A : Type) :=
  | Normal (a : A) (w : World)
  | Throw (e : Exn) (w : World)
  | Unfinished.
Arguments Normal {A} a w.
Arguments Throw {A} e w.
Arguments Unfinished {A}.

Definition M (A : Type) : Type := World -> Completion A.

Definition ret {A} (a : A) : M A := fun w => Normal a w.
Definition bind {A B} (m : M A) (k : A -> M B) : M B :=
  fun w =>
    match m w with
    | Normal a w' => k a w'
    | Throw e w' => Throw e w'
    | Unfinished => Unfinished
    end.
Definition run (f : World -> World) : M unit := fun w => Normal tt (f w).
Definition throw {A} (e : Exn) : M A := fun w => Throw e w.

Notation "'let!' x ':=' m 'in' k" := (bind m (fun x => k))
  (at level 10, x name, m at level 100, k at level 200).
Notation "'do!' m 'in' k" := (bind m (fun _ => k))
  (at level 10, m at level 100, k at level 200).

(** JavaScript's [String.prototype.includes]. *)
Fixpoint includes (needle hay : string) : bool :=
  String.prefix needle hay
  || match hay with
     | EmptyString => false
     | String _ rest => includes needle rest
     end.

(** [Map.prototype.set] on an insertion-ordered map. *)
Fixpoint map_set {V} (k : string) (v : V) (m : list (string * V))
  : list (string * V) :=
  match m with
  | [] => [(k, v)]
  | (k', v') :: rest =>
      if decide (k = k') then (k, v) :: rest else (k', v') :: map_set k v rest
  end.

(** [v ?? d] and the destructuring default [{ f = d }] on a field that is a
    boolean or undefined. *)
Definition nullish (v : option bool) (d : bool) : option bool :=
  match v with
  | Some b => Some b
  | None => Some d
  end.

(** Truthiness of a boolean-or-undefined value. *)
Definition truthy (v : option bool) : bool := default false v.

(** ** What the class imports from the rest of the repository *)

Class HostEnv := {
  (** [clearState] of [utils/interaction/state-controller]. *)
  controller_clearState : World -> bool * World;
  (** [setState] of [utils/interaction/state-controller]. *)
  controller_setState : StateRef -> World -> World;
  (** [getCellMeta] of [utils/interaction/select-event]. *)
  getCellMeta : S2CellType.t -> CellMeta.t;
  (** Running the caller's [onUpdateCells(root, update)]. *)
  callOnUpdateCells : nat -> (World -> World) -> World -> World;
  (** The string each [InteractionName] member stands for. *)
  InteractionName_value : InteractionName.t -> string;
}.

(** ** The [RootInteraction] class *)

Module RootInteraction.
Section Methods.
Context `{HostEnv}.

Import InteractionStateInfo.

(** [private defaultState = { cells: [], force: false }] *)
Definition initialDefaultState : InteractionStateInfo.t :=
  mk None (Some []) None None (Some false) None.

(** *** Interaction state *)

Definition setState (interactionStateInfo : StateRef) (w : World) : World :=
  controller_setState interactionStateInfo w.

(** [store.get(INTERACTION_STATE_INFO_KEY) || this.defaultState], as the
    object it answers. *)
Definition getStateRef (w : World) : StateRef :=
  match store w with
  | Some r => r
  | None => DefaultState
  end.

Definition deref (w : World) (r : StateRef) : InteractionStateInfo.t :=
  match r with
  | DefaultState => defaultState w
  | StateObject s => s
  end.

Definition getState (w : World) : InteractionStateInfo.t :=
  deref w (getStateRef w).

Definition getInteractedCells (w : World) : list S2CellType.t :=
  default [] (interactedCells (getState w)).

(** [state.interactedCells = v] on the object behind the reference. *)
Definition assign_interactedCells (r : StateRef) (v : list S2CellType.t)
    (w : World) : StateRef * World :=
  match r with
  | DefaultState =>
      (DefaultState,
       set_defaultState (with_interactedCells (Some v) (defaultState w)) w)
  | StateObject s =>
      let s' := with_interactedCells (Some v) s in
      (StateObject s', set_store (Some (StateObject s')) w)
  end.

Definition setInteractedCells (cell : S2CellType.t) (w : World) : World :=
  let interactedCells := getInteractedCells w ++ [cell] in
  let state := getStateRef w in
  let '(state, w) := assign_interactedCells state interactedCells w in
  setState state w.

Definition resetState (w : World) : World :=
  set_store (Some DefaultState) w.

Definition getCurrentStateName (w : World) : option InteractionStateName.t :=
  stateName (getState w).

Definition isEqualStateName (name : option InteractionStateName.t) (w : World)
  : bool :=
  bool_decide (getCurrentStateName w = name).

Definition isStateOf (name : InteractionStateName.t) (w : World) : bool :=
  bool_decide (stateName (getState w) = Some name).

Definition isSelectedState (w : World) : bool :=
  existsb (fun name => isStateOf name w)
    [ InteractionStateName.SELECTED;
      InteractionStateName.ALL_SELECTED;
      InteractionStateName.ROW_CELL_BRUSH_SELECTED;
      InteractionStateName.COL_CELL_BRUSH_SELECTED;
      InteractionStateName.DATA_CELL_BRUSH_SELECTED ].

Definition isAllSelectedState (w : World) : bool :=
  isStateOf InteractionStateName.ALL_SELECTED w.

Definition isHoverFocusState (w : World) : bool :=
  isStateOf InteractionStateName.HOVER_FOCUS w.

Definition isHoverState (w : World) : bool :=
  isStateOf InteractionStateName.HOVER w.

Definition getCells (cellType : option (list CellType.t)) (w : World)
  : list CellMeta.t :=
  let cells := default [] (cells (getState w)) in
  match cellType with
  | None => cells
  | Some cellType =>
      filter (fun cell => CellMeta.type cell ∈ cellType) cells
  end.

(** [metas.find((meta) => cell.getMeta().id === meta.id)]: the callback
    dereferences [cell.getMeta()] at every element it visits. *)
Fixpoint find_by_meta_id (cell : S2CellType.t) (metas : list CellMeta.t)
  : Exn + option CellMeta.t :=
  match metas with
  | [] => inr None
  | meta :: rest =>
      match S2CellType.getMeta cell with
      | None => inl TypeError
      | Some m =>
          if decide (Node.id m = CellMeta.id meta) then inr (Some meta)
          else find_by_meta_id cell rest
      end
  end.

Definition isActiveCell (cell : S2CellType.t) : M bool :=
  fun w =>
    match find_by_meta_id cell (getCells None w) with
    | inl e => Throw e w
    | inr found => Normal (bool_decide (is_Some found)) w
    end.

Definition isSelectedCell (cell : S2CellType.t) : M bool :=
  fun w =>
    if isSelectedState w then isActiveCell cell w else Normal false w.

Definition getActiveCells (w : World) : list S2CellType.t :=
  let ids := map CellMeta.id (getCells None w) in
  let allCells := Facet.getCells (facet w) in
  omap (fun id =>
          List.find (fun cell =>
                       bool_decide (Node.id <$> S2CellType.getMeta cell = Some id))
                    allCells)
       ids.

(** *** Drawing and cell updates *)

Definition draw (w : World) : World := perform Render w.

Definition clearState (w : World) : World :=
  let '(cleared, w) := controller_clearState w in
  if cleared then draw w else w.

Definition updateCells (cells : option (list S2CellType.t)) (w : World)
  : World :=
  forEach (fun cell => perform (Update cell)) (default [] cells) w.

Definition updateAllDataCells (w : World) : World :=
  updateCells (Some (Facet.getDataCells (facet w))) w.

Definition clearStyleIndependent (w : World) : World :=
  if negb (isSelectedState w) && negb (isHoverState w)
     && negb (isAllSelectedState w)
  then w
  else forEach (fun cell => perform (HideInteractionShape cell))
         (Facet.getDataCells (facet w)) w.

Definition highlightNodes (nodes : option (list Node.t)) (w : World) : World :=
  forEach (fun node w =>
             match Node.belongsCell node with
             | Some cell =>
                 perform (UpdateByState InteractionStateName.SELECTED cell) w
             | None => w
             end)
          (default [] nodes) w.

(** *** Intercepts *)

Definition addIntercepts (interceptTypes : option (list InterceptType.t))
    (w : World) : World :=
  forEach (fun interceptType w =>
             set_intercepts ({[ interceptType ]} ∪ intercepts w) w)
          (default [] interceptTypes) w.

Definition hasIntercepts (interceptTypes : option (list InterceptType.t))
    (w : World) : bool :=
  existsb (fun interceptType => bool_decide (interceptType ∈ intercepts w))
          (default [] interceptTypes).

Definition removeIntercepts (interceptTypes : option (list InterceptType.t))
    (w : World) : World :=
  forEach (fun interceptType w =>
             set_intercepts (intercepts w ∖ {[ interceptType ]}) w)
          (default [] interceptTypes) w.

(** *** Hover timer *)

(** [clearTimeout(this.hoverTimer!)]: the pending timer is cancelled, the
    field keeps its value. *)
Definition clearHoverTimer (w : World) : World :=
  match hoverTimer w with
  | Some timer => set_timers (timers w ∖ {[ timer ]}) w
  | None => w
  end.

Definition setHoverTimer (timer : Z) (w : World) : World :=
  set_hoverTimer (Some timer) w.

Definition getHoverTimer (w : World) : option Z := hoverTimer w.

Definition reset (w : World) : World :=
  let w := clearState w in
  let w := clearHoverTimer w in
  let w := set_intercepts ∅ w in
  perform HideTooltip w.

(** *** Scrolling *)

Definition scrollTo (offsetConfig : ScrollOffsetConfig.t) (w : World) : World :=
  let f := facet w in
  let config :=
    ScrollOffsetConfig.mk
      (Some (OffsetConfig.mk (Some (Facet.rowHeaderScrollX f)) (Some true)))
      (Some (OffsetConfig.mk (Some (Facet.scrollX f)) (Some true)))
      (Some (OffsetConfig.mk (Some (Facet.scrollY f)) (Some true))) in
  perform (UpdateScrollOffset config offsetConfig) w.

Definition scrollToCellByMeta (meta : option Node.t) (animate : option bool)
    (w : World) : World :=
  let animate := default true animate in
  match meta with
  | None => w
  | Some meta =>
      let f := facet w in
      if negb (Facet.hRowScrollBar f) && negb (Facet.hScrollBar f)
         && negb (Facet.vScrollBar f)
      then w
      else
        scrollTo
          (ScrollOffsetConfig.mk
             (Some (OffsetConfig.mk (Node.x meta) (Some animate)))
             (Some (OffsetConfig.mk (Node.x meta) (Some animate)))
             (Some (OffsetConfig.mk (Node.y meta) (Some animate))))
          w
  end.

Definition scrollToCell (cell : S2CellType.t) (animate : option bool)
    (w : World) : World :=
  scrollToCellByMeta (S2CellType.getMeta cell) (Some (default true animate)) w.

(** *** Changing the state *)

(** The part of [changeState] after the empty-selection guard. *)
Definition changeState_apply (interactionStateInfo : InteractionStateInfo.t)
    (w : World) : World :=
  let w :=
    if bool_decide
         (getCurrentStateName w = Some InteractionStateName.ALL_SELECTED)
    then clearStyleIndependent w else w in
  let w := clearState w in
  let w := setState (StateObject interactionStateInfo) w in
  let update := updateAllDataCells in
  let w :=
    match onUpdateCells interactionStateInfo with
    | Some callback => callOnUpdateCells callback update w
    | None => update w
    end in
  draw w.

(** [changeState] calls itself through [spreadsheet.interaction]; [depth]
    bounds the nesting of calls. *)
Fixpoint changeStateN (depth : nat)
    (interactionStateInfo : InteractionStateInfo.t) : M unit :=
  match depth with
  | O => fun _ => Unfinished
  | S depth =>
      let cells := default [] (cells interactionStateInfo) in
      if bool_decide (cells = [])
         && bool_decide (stateName interactionStateInfo
                         = Some InteractionStateName.SELECTED)
      then
        if truthy (force interactionStateInfo)
        then
          do! changeStateN depth
                (mk (Some InteractionStateName.UNSELECTED) (Some [])
                    None None None None)
          in ret tt
        else ret tt
      else run (changeState_apply interactionStateInfo)
  end.

Definition changeState (interactionStateInfo : InteractionStateInfo.t)
  : M unit :=
  changeStateN 2 interactionStateInfo.

Definition selectAll : M unit :=
  do! changeState
        (mk (Some InteractionStateName.ALL_SELECTED) None None None None None)
  in
  do! run (addIntercepts (Some [InterceptType.HOVER])) in
  fun w => run (updateCells (Some (Facet.getCells (facet w)))) w.

Definition emit_GLOBAL_SELECTED (cells : list S2CellType.t) (w : World)
  : World :=
  perform (Emit_GLOBAL_SELECTED cells) w.

(** The result is [Some true] for [return true] and [None] for a bare
    [return].  A cell instance always carries fields of its own, so lodash's
    [isEmpty(cell)] holds exactly when no cell is given. *)
Definition changeCell (options : option ChangeCellOptions.t)
  : M (option bool) :=
  let options :=
    default (ChangeCellOptions.mk None None None None) options in
  let stateName :=
    default InteractionStateName.SELECTED (ChangeCellOptions.stateName options) in
  let scrollIntoView := default true (ChangeCellOptions.scrollIntoView options) in
  match ChangeCellOptions.cell options with
  | None => ret None
  | Some cell =>
      match S2CellType.getMeta cell with
      | None => ret None
      | Some meta =>
          match Node.x meta with
          | None => ret None
          | Some _ =>
              do! run (addIntercepts (Some [InterceptType.HOVER])) in
              let! isSelectedCell := isSelectedCell cell in
              fun w =>
                let isHierarchyTree := isHierarchyTreeType w in
                let isColCell :=
                  bool_decide (S2CellType.cellType cell = CellType.COL_CELL) in
                let lastState := getState w in
                let isMultiSelected :=
                  truthy (ChangeCellOptions.isMultiSelection options)
                  && isSelectedState w in
                let childrenNodes :=
                  if isSelectedCell then []
                  else Facet.getCellChildrenNodes (facet w) cell in
                let selectedCells :=
                  if isSelectedCell then [] else [getCellMeta cell] in
                let selectedCells :=
                  if isMultiSelected then
                    let selectedCells :=
                      default [] (cells lastState) ++ selectedCells in
                    if isSelectedCell
                    then filter (fun c => CellMeta.id c ≠ Node.id meta)
                           selectedCells
                    else selectedCells
                  else selectedCells in
                let childrenNodes :=
                  if isMultiSelected then
                    let childrenNodes :=
                      default [] (nodes lastState) ++ childrenNodes in
                    if isSelectedCell
                    then List.filter
                           (fun node =>
                              negb (includes (Node.id meta) (Node.id node)))
                           childrenNodes
                    else childrenNodes
                  else childrenNodes in
                match selectedCells with
                | [] =>
                    let w := reset w in
                    let w := emit_GLOBAL_SELECTED (getActiveCells w) w in
                    Normal None w
                | _ :: _ =>
                    let nodes :=
                      match childrenNodes with
                      | [] => [meta]
                      | _ :: _ => childrenNodes
                      end in
                    (do! changeState
                           (mk (Some stateName) (Some selectedCells) None
                               (Some nodes) None None)
                     in
                     fun w =>
                       let selectedCellIds := map CellMeta.id selectedCells in
                       let w :=
                         updateCells
                           (Some (Facet.getHeaderCells (facet w) selectedCellIds))
                           w in
                       let w :=
                         if negb isHierarchyTree || isColCell
                         then highlightNodes (Some childrenNodes) w else w in
                       let w :=
                         if scrollIntoView then scrollToCell cell None w
                         else w in
                       let w := emit_GLOBAL_SELECTED (getActiveCells w) w in
                       Normal (Some true) w) w
                end
          end
      end
  end.

Definition highlightCell (cell : S2CellType.t) : M (option bool) :=
  changeCell
    (Some (ChangeCellOptions.mk (Some cell) (Some InteractionStateName.HOVER)
             None None)).

Definition selectCell (cell : S2CellType.t) : M (option bool) :=
  changeCell
    (Some (ChangeCellOptions.mk (Some cell) (Some InteractionStateName.SELECTED)
             None None)).

(** *** Normalising the interaction options *)

Definition getBrushSelectionInfo
    (brushSelection : Switch BrushSelectionOptions.t) : BrushSelectionInfo.t :=
  match brushSelection with
  | Flag brushSelection =>
      BrushSelectionInfo.mk (Some brushSelection) (Some brushSelection)
        (Some brushSelection)
  | Object o =>
      BrushSelectionInfo.mk
        (nullish (BrushSelectionOptions.dataCell o) false)
        (nullish (BrushSelectionOptions.rowCell o) false)
        (nullish (BrushSelectionOptions.colCell o) false)
  | Absent =>
      BrushSelectionInfo.mk (nullish None false) (nullish None false)
        (nullish None false)
  end.

Definition getSelectedCellHighlight (w : World)
  : InteractionCellHighlightOptions.t :=
  match InteractionOptions.selectedCellHighlight (options w) with
  | Flag selectedCellHighlight =>
      InteractionCellHighlightOptions.mk
        (Some selectedCellHighlight) (Some selectedCellHighlight)
        (Some selectedCellHighlight) (Some selectedCellHighlight)
  | Object o =>
      InteractionCellHighlightOptions.mk
        (nullish (InteractionCellHighlightOptions.rowHeader o) false)
        (nullish (InteractionCellHighlightOptions.colHeader o) false)
        (nullish (InteractionCellHighlightOptions.currentRow o) false)
        (nullish (InteractionCellHighlightOptions.currentCol o) false)
  | Absent =>
      (* destructuring the empty object *)
      InteractionCellHighlightOptions.mk (nullish None false)
        (nullish None false) (nullish None false) (nullish None false)
  end.

Definition getHoverHighlight (w : World) : InteractionCellHighlightOptions.t :=
  match InteractionOptions.hoverHighlight (options w) with
  | Flag hoverHighlight =>
      InteractionCellHighlightOptions.mk
        (Some hoverHighlight) (Some hoverHighlight)
        (Some hoverHighlight) (Some hoverHighlight)
  | Object o =>
      InteractionCellHighlightOptions.mk
        (nullish (InteractionCellHighlightOptions.rowHeader o) false)
        (nullish (InteractionCellHighlightOptions.colHeader o) false)
        (nullish (InteractionCellHighlightOptions.currentRow o) false)
        (nullish (InteractionCellHighlightOptions.currentCol o) false)
  | Absent =>
      InteractionCellHighlightOptions.mk (nullish None false)
        (nullish None false) (nullish None false) (nullish None false)
  end.

Definition getBrushSelection (w : World) : BrushSelectionOptions.t :=
  match InteractionOptions.brushSelection (options w) with
  | Flag brushSelection =>
      BrushSelectionOptions.mk (Some brushSelection) (Some brushSelection)
        (Some brushSelection)
  | Object o =>
      BrushSelectionOptions.mk
        (nullish (BrushSelectionOptions.dataCell o) false)
        (nullish (BrushSelectionOptions.rowCell o) false)
        (nullish (BrushSelectionOptions.colCell o) false)
  | Absent =>
      BrushSelectionOptions.mk (nullish None false) (nullish None false)
        (nullish None false)
  end.

(** *** Registering the interaction handlers *)

(** The value of [!isMobile() && v]. *)
Definition unless_mobile {A} (w : World) (v : Switch A) : Switch A :=
  if negb (isMobile w) then v else Flag false.

Definition of_boolean (v : option bool) : Switch unit :=
  match v with
  | Some b => Flag b
  | None => Absent
  end.

Definition getDefaultInteractions (w : World)
  : list (InteractionName.t * InteractionClass * Switch unit) :=
  let o := options w in
  let info := getBrushSelectionInfo (InteractionOptions.brushSelection o) in
  [ (InteractionName.CORNER_CELL_CLICK, CornerCellClick, Absent);
    (InteractionName.DATA_CELL_CLICK, DataCellClick, Absent);
    (InteractionName.ROW_COLUMN_CLICK, RowColumnClick, Absent);
    (InteractionName.ROW_TEXT_CLICK, RowTextClick, Absent);
    (InteractionName.MERGED_CELLS_CLICK, MergedCellClick, Absent);
    (InteractionName.HOVER, HoverEvent, Flag (negb (isMobile w)));
    (InteractionName.DATA_CELL_BRUSH_SELECTION, DataCellBrushSelection,
      unless_mobile w
        (of_boolean (BrushSelectionInfo.dataCellBrushSelection info)));
    (InteractionName.ROW_CELL_BRUSH_SELECTION, RowCellBrushSelection,
      unless_mobile w
        (of_boolean (BrushSelectionInfo.rowCellBrushSelection info)));
    (InteractionName.COL_CELL_BRUSH_SELECTION, ColCellBrushSelection,
      unless_mobile w
        (of_boolean (BrushSelectionInfo.colCellBrushSelection info)));
    (InteractionName.COL_ROW_RESIZE, RowColumnResize,
      unless_mobile w (InteractionOptions.resize o));
    (InteractionName.DATA_CELL_MULTI_SELECTION, DataCellMultiSelection,
      unless_mobile w (InteractionOptions.multiSelection o));
    (InteractionName.RANGE_SELECTION, RangeSelection,
      unless_mobile w (InteractionOptions.rangeSelection o));
    (InteractionName.SELECTED_CELL_MOVE, SelectedCellMove,
      unless_mobile w (InteractionOptions.selectedCellMove o)) ].

(** [this.interactions.set(key, new Interaction(this.spreadsheet))] *)
Definition register (key : string) (cls : InteractionClass) (w : World)
  : World :=
  let w := perform (Construct cls) w in
  set_interactions (map_set key cls (interactions w)) w.

Definition registerInteractions (w : World) : World :=
  let customInteractions := InteractionOptions.customInteractions (options w) in
  let w := set_interactions [] w in
  let defaultInteractions := getDefaultInteractions w in
  let w :=
    forEach (fun '(key, Interaction, enable) w =>
               match enable with
               | Flag false => w
               | _ => register (InteractionName_value key) Interaction w
               end)
            defaultInteractions w in
  match customInteractions with
  | None | Some [] => w
  | Some customInteractions =>
      forEach (fun customInteraction =>
                 register (CustomInteraction.key customInteraction)
                   (CustomInteraction.interaction customInteraction))
              customInteractions w
  end.

Definition registerEventController (w : World) : World :=
  set_eventController Bound w.

(** *** The window's listeners *)

(** [window.addEventListener]: a listener already registered for the type is
    not registered twice. *)
Definition addEventListener (type : string) (l : Listener) (w : World)
  : World :=
  if bool_decide ((type, l) ∈ listeners w) then w
  else set_listeners (listeners w ++ [(type, l)]) w.

Definition removeEventListener (type : string) (l : Listener) (w : World)
  : World :=
  set_listeners (filter (fun e => e ≠ (type, l)) (listeners w)) w.

(** [this.interactions.forEach((interaction) => interaction.reset())] *)
Definition triggerInteractionsResetEffect (w : World) : World :=
  forEach (fun '(key, _) => perform (HandlerReset key)) (interactions w) w.

Definition callListener (l : Listener) (w : World) : World :=
  match l with
  | onTriggerInteractionsResetEffect => triggerInteractionsResetEffect w
  | Foreign n => perform (ForeignListener n) w
  end.

(** The window dispatching an event of the given type to the listeners
    registered at that moment. *)
Definition dispatchEvent (type : string) (w : World) : World :=
  forEach (fun '(t, l) w => if bool_decide (t = type) then callListener l w else w)
          (listeners w) w.

(** *** Construction and destruction *)

(** The field initialisers, then the constructor's body. *)
Definition constructor (w : World) : World :=
  let w := set_interactions [] w in
  let w := set_intercepts ∅ w in
  let w := set_hoverTimer None w in
  let w := set_defaultState initialDefaultState w in
  let w := registerEventController w in
  let w := registerInteractions w in
  addEventListener "visibilitychange" onTriggerInteractionsResetEffect w.

Definition destroy (w : World) : World :=
  let w := set_interactions [] w in
  let w := set_intercepts ∅ w in
  let w := set_eventController Cleared w in
  let w := clearHoverTimer w in
  let w := resetState w in
  removeEventListener "visibilitychange" onTriggerInteractionsResetEffect w.

End Methods.
End RootInteraction.

(** *** Methods that need more of the facet *)

Module RootInteractionMore.
Import RootInteraction.

(** [xs.filter(p)] for a predicate that may throw: the elements are tested
    in order. *)
Fixpoint filterM {A} (p : A -> M bool) (xs : list A) : M (list A) :=
  match xs with
  | [] => ret []
  | x :: xs =>
      let! keep := p x in
      (let! rest := filterM p xs in
       ret (if keep then x :: rest else rest))
  end.

Definition getUnSelectedDataCells : M (list S2CellType.t) :=
  fun w =>
    filterM (fun cell => let! active := isActiveCell cell in ret (negb active))
      (Facet.getDataCells (facet w)) w.


Section Scrolling.
(** [facet.getHeaderNodes()] *)
Variable getHeaderNodes : Facet.t -> list Node.t.


End Scrolling.
End RootInteractionMore.

(** ** The [ColumnTextClick] handler *)

Inductive JsValue :=
  | Undefined
  | Null
  | Boolean (b : bool)
  | Number (z : Z)
  | Str (s : string).

(** [Object.assign(target, source)]: every own property of the source is
    written over the target; a nil source is skipped. *)
Definition Object_assign (target : gmap string JsValue)
    (source : option (gmap string JsValue)) : gmap string JsValue :=
  match source with
  | Some source => source ∪ target
  | None => target
  end.

Module ColumnTextClick.

(** The view meta a cell's shape carries as [cellData]. *)
Record CellData := mkCellData {
  valueField : JsValue;
  data : option (gmap string JsValue);
  rowIndex : option Z;
}.

Record AppendInfo := mkAppendInfo {
  cellData : option CellData;
}.

Record LinkFieldJump := mkLinkFieldJump {
  jump_cellData : CellData;
  field : JsValue;
  record : gmap string JsValue;
}.

(** What one listener call did: the [GLOBAL_LINK_FIELD_JUMP] events it
    emitted, or the exception it ended with. *)
Inductive Outcome :=
  | Emitted (events : list LinkFieldJump)
  | Thrown (e : Exn).

Section Handler.
(** The event target, and the two [BaseEvent] methods that read it. *)
Context {Target : Type}.
Variable isLinkFieldText : Target -> bool.
Variable getCellAppendInfo : Target -> AppendInfo.

Definition of_number (v : option Z) : JsValue :=
  match v with
  | Some z => Number z
  | None => Undefined
  end.

Definition emitLinkFieldClickEvent (target : Target) : Outcome :=
  match cellData (getCellAppendInfo target) with
  | None => Thrown TypeError
  | Some cellData =>
      let field := valueField cellData in
      let record := data cellData in
      Emitted
        [ mkLinkFieldJump cellData field
            (Object_assign {[ "rowIndex" := of_number (rowIndex cellData) ]}
               record) ]
  end.

(** The listener [bindColumnTextClick] registers for [COL_CELL_CLICK]. *)
Definition onColCellClick (target : Target) : Outcome :=
  if isLinkFieldText target then emitLinkFieldClickEvent target
  else Emitted [].

End Handler.
End ColumnTextClick.

(** ** The layout helper [handleLayoutHook] *)

Module LayoutHook.
Section Hook.
(** The sheet instance and the state the callback works on. *)
Context {SpreadSheet Host : Type}.

(** A layout callback changes the host or throws ([None]). *)
Definition LayoutCallback : Type :=
  SpreadSheet -> Node.t -> Node.t -> Host -> option Host.

Record SpreadsheetFacetCfg := mkCfg {
  spreadsheet : SpreadSheet;
  layout : option LayoutCallback;
}.

(** The calls made, with their arguments, and the host afterwards. *)
Definition handleLayoutHook (facetCfg : option SpreadsheetFacetCfg)
    (rowNode colNode : Node.t) (h : Host)
  : list (SpreadSheet * Node.t * Node.t) * option Host :=
  let layout := facetCfg ≫= layout in
  match layout, facetCfg with
  | Some layout, Some facetCfg =>
      ([(spreadsheet facetCfg, rowNode, colNode)],
       layout (spreadsheet facetCfg) rowNode colNode h)
  | Some _, None => ([], None)
  | None, _ => ([], Some h)
  end.

End Hook.
End LayoutHook.

(** ** A model of the missing state controller, and sample data *)

Module StateController.

(** Modelled from the spec: [clearState] of
    [utils/interaction/state-controller], which is not among the sources.
    The coordinator "manages mutable UI state (selected/hovered cell sets,
    intercept flags, registered interaction handlers) synchronized with a
    canvas redraw cycle": clearing hides the shapes of the interacted cells,
    puts the default state back, and answers whether there was anything to
    clear, which is when the caller redraws. *)
Definition clearState (w : World) : bool * World :=
  let interacted := RootInteraction.getInteractedCells w in
  let cells := default [] (InteractionStateInfo.cells (RootInteraction.getState w)) in
  match interacted, cells with
  | [], [] => (false, w)
  | _, _ =>
      (true,
       RootInteraction.resetState
         (forEach (fun cell => perform (HideInteractionShape cell)) interacted w))
  end.

(** Modelled from the spec: [setState] of
    [utils/interaction/state-controller], which is not among the sources:
    the given state object becomes the stored interaction state. *)
Definition setState (interactionStateInfo : StateRef) (w : World) : World :=
  set_store (Some interactionStateInfo) w.

End StateController.

(** Modelled from the spec: the remaining imports of the class that are not
    among the sources ([getCellMeta], the values of [InteractionName], and a
    caller's [onUpdateCells] that just runs the update it is handed). *)
Definition modelEnv : HostEnv := {|
  controller_clearState := StateController.clearState;
  controller_setState := StateController.setState;
  getCellMeta := fun cell =>
    CellMeta.mk (default "" (Node.id <$> S2CellType.getMeta cell)) 0 0
      (S2CellType.cellType cell);
  callOnUpdateCells := fun _ update w => update w;
  InteractionName_value := fun n =>
    match n with
    | InteractionName.CORNER_CELL_CLICK => "cornerCellClick"
    | InteractionName.DATA_CELL_CLICK => "dataCellClick"
    | InteractionName.ROW_COLUMN_CLICK => "rowColumnClick"
    | InteractionName.ROW_TEXT_CLICK => "rowTextClick"
    | InteractionName.MERGED_CELLS_CLICK => "mergedCellsClick"
    | InteractionName.HOVER => "hover"
    | InteractionName.DATA_CELL_BRUSH_SELECTION => "dataCellBrushSelection"
    | InteractionName.ROW_CELL_BRUSH_SELECTION => "rowCellBrushSelection"
    | InteractionName.COL_CELL_BRUSH_SELECTION => "colCellBrushSelection"
    | InteractionName.COL_ROW_RESIZE => "rowColResize"
    | InteractionName.DATA_CELL_MULTI_SELECTION => "dataCellMultiSelection"
    | InteractionName.RANGE_SELECTION => "rangeSelection"
    | InteractionName.SELECTED_CELL_MOVE => "selectedCellMove"
    end%string;
|}.

Module Sample.

Definition nodeA : Node.t := Node.mk "root[&]a" (Some 0) (Some 0) (Some 1%nat).
Definition nodeB : Node.t := Node.mk "root[&]b" (Some 0) (Some 30) (Some 2%nat).
Definition cellA : S2CellType.t := S2CellType.mk 1 CellType.ROW_CELL (Some nodeA).
Definition cellB : S2CellType.t := S2CellType.mk 2 CellType.ROW_CELL (Some nodeB).
Definition metaA : CellMeta.t := CellMeta.mk "root[&]a" (-1) 0 CellType.ROW_CELL.
Definition metaB : CellMeta.t := CellMeta.mk "root[&]b" (-1) 1 CellType.ROW_CELL.

Definition sampleFacet : Facet.t :=
  Facet.mk [cellA; cellB] [] (fun _ => []) (fun _ => [])
    false false false 0 0 0.

Definition sampleOptions : InteractionOptions.t :=
  InteractionOptions.mk Absent Absent Absent Absent Absent None Absent Absent.

(** A sheet before its interaction is constructed. *)
Definition bare : World :=
  mkWorld None sampleOptions sampleFacet false [] false [] ∅
    [] ∅ None Cleared RootInteraction.initialDefaultState.

(** A freshly constructed interaction. *)
Definition fresh : World := RootInteraction.constructor (H := modelEnv) bare.

(** Rows a and b are selected. *)
Definition bothSelected : World :=
  set_store
    (Some (StateObject
             (InteractionStateInfo.mk (Some InteractionStateName.SELECTED)
                (Some [metaA; metaB]) None None None None)))
    fresh.

End Sample.

(** ** Notions the statements use *)

(** The state names [isSelectedState] looks for. *)
Definition selectedStateNames : list InteractionStateName.t :=
  [ InteractionStateName.SELECTED;
    InteractionStateName.ALL_SELECTED;
    InteractionStateName.ROW_CELL_BRUSH_SELECTED;
    InteractionStateName.COL_CELL_BRUSH_SELECTED;
    InteractionStateName.DATA_CELL_BRUSH_SELECTED ].

(** Everything but the trace and the registered handlers. *)
Definition beyond_handlers (w : World) :=
  (store w, options w, facet w, isHierarchyTreeType w, isMobile w,
   listeners w, timers w, intercepts w, hoverTimer w,
   eventController w, defaultState w).

(** The state [changeState] hands to its nested call. *)
Definition unselected : InteractionStateInfo.t :=
  InteractionStateInfo.mk (Some InteractionStateName.UNSELECTED) (Some [])
    None None None None.

(** The host calls one listener makes when an event of [type] reaches it. *)
Definition listener_calls (type : string) (w : World)
    (entry : string * Listener) : list Effect :=
  if bool_decide (entry.1 = type) then
    match entry.2 with
    | onTriggerInteractionsResetEffect =>
        map (fun handler => HandlerReset handler.1) (interactions w)
    | Foreign n => [ForeignListener n]
    end
  else [].

(** * Properties *)

Import RootInteraction.

(** ** Frame lemmas *)

Lemma forEach_cons {A} (f : A -> World -> World) x xs w :
  forEach f (x :: xs) w = forEach f xs (f x w).
Proof. reflexivity. Qed.

Lemma forEach_app {A} (f : A -> World -> World) xs ys w :
  forEach f (xs ++ ys) w = forEach f ys (forEach f xs w).
Proof. unfold forEach. apply foldl_app. Qed.

(** A loop of host calls only extends the trace. *)
Lemma forEach_perform {A} (e : A -> Effect) xs w :
  forEach (fun a => perform (e a)) xs w = set_trace (trace w ++ map e xs) w.
Proof.
  revert w. induction xs as [|x xs IH]; intros w.
  - cbn. rewrite app_nil_r. by destruct w.
  - rewrite forEach_cons, IH. unfold perform, set_trace. cbn.
    by rewrite <- app_assoc.
Qed.

Lemma addIntercepts_spec L w :
  addIntercepts L w
  = set_intercepts (list_to_set (default [] L) ∪ intercepts w) w.
Proof.
  unfold addIntercepts. generalize (default [] L). clear L. intros L.
  revert w. induction L as [|x L IH]; intros w.
  - cbn. destruct w. unfold set_intercepts. cbn. f_equal. set_solver.
  - rewrite forEach_cons, IH. unfold set_intercepts. cbn. f_equal. set_solver.
Qed.

Lemma removeIntercepts_spec L w :
  removeIntercepts L w
  = set_intercepts (intercepts w ∖ list_to_set (default [] L)) w.
Proof.
  unfold removeIntercepts. generalize (default [] L). clear L. intros L.
  revert w. induction L as [|x L IH]; intros w.
  - cbn. destruct w. unfold set_intercepts. cbn. f_equal. set_solver.
  - rewrite forEach_cons, IH. unfold set_intercepts. cbn. f_equal. set_solver.
Qed.

Lemma hasIntercepts_true L w :
  hasIntercepts L w = true
  <-> exists x, x ∈ default [] L /\ x ∈ intercepts w.
Proof.
  unfold hasIntercepts. rewrite existsb_exists. split.
  - intros (x & Hin & Hx). exists x. split.
    + by apply list_elem_of_In.
    + by apply bool_decide_eq_true in Hx.
  - intros (x & Hin & Hx). exists x. split.
    + by apply list_elem_of_In.
    + by apply bool_decide_eq_true.
Qed.

(** ** Intercepts *)

(** C2: [addIntercepts L] leaves exactly the previous intercepts plus the
    elements of [L], [removeIntercepts L] exactly the previous ones minus the
    elements of [L], and [hasIntercepts L'] answers true exactly when some
    element of [L'] is in the set; on the empty list (or without an argument)
    it answers false.  Neither update touches anything but the set. *)
Theorem intercepts_add_remove_has :
  forall (w : World) (L : list InterceptType.t),
    (forall x, x ∈ intercepts (addIntercepts (Some L) w)
               <-> x ∈ intercepts w \/ x ∈ L)
    /\ (forall x, x ∈ intercepts (removeIntercepts (Some L) w)
                  <-> x ∈ intercepts w /\ x ∉ L)
    /\ (forall L', hasIntercepts (Some L') w = true
                   <-> exists x, x ∈ L' /\ x ∈ intercepts w)
    /\ hasIntercepts (Some []) w = false
    /\ hasIntercepts None w = false
    /\ addIntercepts (Some L) w
       = set_intercepts (intercepts (addIntercepts (Some L) w)) w
    /\ removeIntercepts (Some L) w
       = set_intercepts (intercepts (removeIntercepts (Some L) w)) w.
Proof.
  intros w L.
  rewrite addIntercepts_spec, removeIntercepts_spec. cbn.
  split; [|split; [|split; [|split; [|split; [|split]]]]];
    try reflexivity.
  - intros x. set_solver.
  - intros x. set_solver.
  - intros L'. exact (hasIntercepts_true (Some L') w).
Qed.

(** ** Selected state and selected cells *)

Lemma isSelectedState_true w :
  isSelectedState w = true
  <-> exists name, name ∈ selectedStateNames /\ getCurrentStateName w = Some name.
Proof.
  unfold isSelectedState. rewrite existsb_exists. split.
  - intros (name & Hin & Hname). exists name. split.
    + by apply list_elem_of_In.
    + by apply bool_decide_eq_true in Hname.
  - intros (name & Hin & Hname). exists name. split.
    + by apply list_elem_of_In in Hin.
    + by apply bool_decide_eq_true.
Qed.

Lemma find_by_meta_id_some cell m metas :
  S2CellType.getMeta cell = Some m ->
  exists found,
    find_by_meta_id cell metas = inr found
    /\ (is_Some found
        <-> exists c, c ∈ metas /\ CellMeta.id c = Node.id m).
Proof.
  intros Hm. induction metas as [|meta rest IH]; cbn; rewrite ?Hm.
  - exists None. split; [done|]. split.
    + by intros [? ?].
    + intros (c & Hc & _). by apply elem_of_nil in Hc.
  - destruct (decide (Node.id m = CellMeta.id meta)) as [Heq|Hne].
    + exists (Some meta). split; [done|]. split; [|by eauto].
      intros _. exists meta. split; [apply list_elem_of_here|done].
    + destruct IH as (found & -> & IH). exists found. split; [done|].
      rewrite IH. split.
      * intros (c & Hc & Hid). exists c. split; [by apply list_elem_of_further|done].
      * intros (c & Hc & Hid). apply elem_of_cons in Hc as [->|Hc].
        -- congruence.
        -- eauto.
Qed.

Lemma find_by_meta_id_none cell metas :
  S2CellType.getMeta cell = None ->
  find_by_meta_id cell metas
  = match metas with [] => inr None | _ :: _ => inl TypeError end.
Proof. intros Hm. destruct metas; cbn; by rewrite ?Hm. Qed.

(** [isSelectedCell] on a cell that has a meta: no exception, no change. *)
Lemma isSelectedCell_meta cell m w :
  S2CellType.getMeta cell = Some m ->
  exists b,
    isSelectedCell cell w = Normal b w
    /\ (b = true
        <-> isSelectedState w = true
            /\ exists c, c ∈ getCells None w /\ CellMeta.id c = Node.id m).
Proof.
  intros Hm. unfold isSelectedCell, isActiveCell.
  destruct (isSelectedState w).
  - destruct (find_by_meta_id_some cell m (getCells None w) Hm)
      as (found & -> & Hfound).
    eexists. split; [reflexivity|].
    rewrite bool_decide_eq_true, Hfound. naive_solver.
  - exists false. split; [done|]. naive_solver.
Qed.

(** C5: [isSelectedState] answers true exactly when the current state name
    is one of SELECTED, ALL_SELECTED, ROW_CELL_BRUSH_SELECTED,
    COL_CELL_BRUSH_SELECTED and DATA_CELL_BRUSH_SELECTED; and
    [isSelectedCell cell] returns true exactly when [isSelectedState] holds
    and the id of the cell's meta is the id of a cell in the current state's
    list.  The call changes nothing. *)
Theorem isSelectedState_isSelectedCell :
  forall (w : World) (cell : S2CellType.t),
    (isSelectedState w = true
     <-> getCurrentStateName w = Some InteractionStateName.SELECTED
         \/ getCurrentStateName w = Some InteractionStateName.ALL_SELECTED
         \/ getCurrentStateName w
            = Some InteractionStateName.ROW_CELL_BRUSH_SELECTED
         \/ getCurrentStateName w
            = Some InteractionStateName.COL_CELL_BRUSH_SELECTED
         \/ getCurrentStateName w
            = Some InteractionStateName.DATA_CELL_BRUSH_SELECTED)
    /\ ((exists w', isSelectedCell cell w = Normal true w')
        <-> isSelectedState w = true
            /\ exists m c,
                 S2CellType.getMeta cell = Some m
                 /\ c ∈ default [] (InteractionStateInfo.cells (getState w))
                 /\ CellMeta.id c = Node.id m)
    /\ (forall b w', isSelectedCell cell w = Normal b w' -> w' = w).
Proof.
  intros w cell. split; [|split].
  - rewrite isSelectedState_true. unfold selectedStateNames. split.
    + intros (name & Hin & ->).
      repeat (apply elem_of_cons in Hin as [->|Hin]; [tauto|]).
      by apply elem_of_nil in Hin.
    + intros Hn. destruct (getCurrentStateName w) as [name|]; [|naive_solver].
      exists name. split; [|done].
      destruct Hn as [Hn|[Hn|[Hn|[Hn|Hn]]]]; injection Hn as ->;
        repeat constructor.
  - destruct (S2CellType.getMeta cell) as [m|] eqn:Hm.
    + destruct (isSelectedCell_meta cell m w Hm) as (b & Hb & Hiff).
      rewrite Hb. split.
      * intros (w' & Hw'). injection Hw' as -> _.
        destruct Hiff as [Hiff _]. destruct (Hiff eq_refl) as (? & c & ? & ?).
        split; [done|]. by exists m, c.
      * intros (Hs & m' & c & Hm' & Hc & Hid). injection Hm' as <-.
        exists w. f_equal. apply Hiff. split; [done|]. by exists c.
    + split.
      * intros (w' & Hw'). unfold isSelectedCell, isActiveCell in Hw'.
        rewrite find_by_meta_id_none in Hw' by done.
        destruct (isSelectedState w); [|done].
        by destruct (getCells None w).
      * by intros (_ & m & c & ? & _).
  - intros b w'. unfold isSelectedCell, isActiveCell.
    destruct (isSelectedState w); [|by intros [= _ ->]].
    destruct (find_by_meta_id cell (getCells None w)); [done|].
    by intros [= _ ->].
Qed.

(** ** Option getters *)

(** C8: the four option-normalising getters turn a boolean option into a
    record whose every field is that boolean, an absent option into a record
    of [false], and an options object into its fields with [false] put in
    for each missing one; no field of a result is undefined. *)
Theorem option_getters_normalize :
  forall (w : World) (brushSelection : Switch BrushSelectionOptions.t),
    let dflt := default false in
    (* getBrushSelectionInfo *)
    match brushSelection with
    | Flag b =>
        getBrushSelectionInfo brushSelection
        = BrushSelectionInfo.mk (Some b) (Some b) (Some b)
    | Absent =>
        getBrushSelectionInfo brushSelection
        = BrushSelectionInfo.mk (Some false) (Some false) (Some false)
    | Object o =>
        getBrushSelectionInfo brushSelection
        = BrushSelectionInfo.mk
            (Some (dflt (BrushSelectionOptions.dataCell o)))
            (Some (dflt (BrushSelectionOptions.rowCell o)))
            (Some (dflt (BrushSelectionOptions.colCell o)))
    end
    (* getSelectedCellHighlight *)
    /\ match InteractionOptions.selectedCellHighlight (options w) with
       | Flag b =>
           getSelectedCellHighlight w
           = InteractionCellHighlightOptions.mk
               (Some b) (Some b) (Some b) (Some b)
       | Absent =>
           getSelectedCellHighlight w
           = InteractionCellHighlightOptions.mk
               (Some false) (Some false) (Some false) (Some false)
       | Object o =>
           getSelectedCellHighlight w
           = InteractionCellHighlightOptions.mk
               (Some (dflt (InteractionCellHighlightOptions.rowHeader o)))
               (Some (dflt (InteractionCellHighlightOptions.colHeader o)))
               (Some (dflt (InteractionCellHighlightOptions.currentRow o)))
               (Some (dflt (InteractionCellHighlightOptions.currentCol o)))
       end
    (* getHoverHighlight *)
    /\ match InteractionOptions.hoverHighlight (options w) with
       | Flag b =>
           getHoverHighlight w
           = InteractionCellHighlightOptions.mk
               (Some b) (Some b) (Some b) (Some b)
       | Absent =>
           getHoverHighlight w
           = InteractionCellHighlightOptions.mk
               (Some false) (Some false) (Some false) (Some false)
       | Object o =>
           getHoverHighlight w
           = InteractionCellHighlightOptions.mk
               (Some (dflt (InteractionCellHighlightOptions.rowHeader o)))
               (Some (dflt (InteractionCellHighlightOptions.colHeader o)))
               (Some (dflt (InteractionCellHighlightOptions.currentRow o)))
               (Some (dflt (InteractionCellHighlightOptions.currentCol o)))
       end
    (* getBrushSelection *)
    /\ match InteractionOptions.brushSelection (options w) with
       | Flag b =>
           getBrushSelection w = BrushSelectionOptions.mk (Some b) (Some b) (Some b)
       | Absent =>
           getBrushSelection w
           = BrushSelectionOptions.mk (Some false) (Some false) (Some false)
       | Object o =>
           getBrushSelection w
           = BrushSelectionOptions.mk
               (Some (dflt (BrushSelectionOptions.dataCell o)))
               (Some (dflt (BrushSelectionOptions.rowCell o)))
               (Some (dflt (BrushSelectionOptions.colCell o)))
       end
    (* no undefined field *)
    /\ (let r := getBrushSelectionInfo brushSelection in
        is_Some (BrushSelectionInfo.dataCellBrushSelection r)
        /\ is_Some (BrushSelectionInfo.rowCellBrushSelection r)
        /\ is_Some (BrushSelectionInfo.colCellBrushSelection r))
    /\ (let r := getSelectedCellHighlight w in
        is_Some (InteractionCellHighlightOptions.rowHeader r)
        /\ is_Some (InteractionCellHighlightOptions.colHeader r)
        /\ is_Some (InteractionCellHighlightOptions.currentRow r)
        /\ is_Some (InteractionCellHighlightOptions.currentCol r))
    /\ (let r := getHoverHighlight w in
        is_Some (InteractionCellHighlightOptions.rowHeader r)
        /\ is_Some (InteractionCellHighlightOptions.colHeader r)
        /\ is_Some (InteractionCellHighlightOptions.currentRow r)
        /\ is_Some (InteractionCellHighlightOptions.currentCol r))
    /\ (let r := getBrushSelection w in
        is_Some (BrushSelectionOptions.dataCell r)
        /\ is_Some (BrushSelectionOptions.rowCell r)
        /\ is_Some (BrushSelectionOptions.colCell r)).
Proof.
  intros w brushSelection dflt. subst dflt.
  unfold getSelectedCellHighlight, getHoverHighlight, getBrushSelection.
  repeat apply conj.
  1, 5, 6, 7: by destruct brushSelection as [|?|[[?|] [?|] [?|]]]; cbn; eauto.
  1, 4, 5, 6, 7:
    by destruct (InteractionOptions.selectedCellHighlight (options w))
      as [|?|[[?|] [?|] [?|] [?|]]]; cbn; eauto.
  1, 3, 4, 5, 6:
    by destruct (InteractionOptions.hoverHighlight (options w))
      as [|?|[[?|] [?|] [?|] [?|]]]; cbn; eauto.
  all: by destruct (InteractionOptions.brushSelection (options w))
      as [|?|[[?|] [?|] [?|]]]; cbn; eauto.
Qed.

(** ** What a method leaves alone *)

Lemma forEach_preserve {A B} (proj : World -> B) (f : A -> World -> World)
    xs w :
  (forall a w, proj (f a w) = proj w) ->
  proj (forEach f xs w) = proj w.
Proof.
  intros Hf. revert w. induction xs as [|x xs IH]; intros w; [done|].
  by rewrite forEach_cons, IH, Hf.
Qed.

Lemma registerInteractions_frame `{HostEnv} w :
  beyond_handlers (registerInteractions w) = beyond_handlers w.
Proof.
  unfold registerInteractions.
  set (w1 := forEach _ (getDefaultInteractions _) _).
  assert (Hw1 : beyond_handlers w1 = beyond_handlers w).
  { subst w1. rewrite forEach_preserve; [done|].
    intros [[key cls] enable] w'. by destruct enable as [|[]|]. }
  destruct (InteractionOptions.customInteractions (options w)) as [[|c cs]|];
    [done| |done].
  rewrite forEach_preserve; [done|]. by intros a w'.
Qed.

Lemma constructor_frame `{HostEnv} w :
  store (constructor w) = store w
  /\ defaultState (constructor w) = initialDefaultState
  /\ intercepts (constructor w) = ∅
  /\ hoverTimer (constructor w) = None
  /\ eventController (constructor w) = Bound
  /\ ("visibilitychange"%string, onTriggerInteractionsResetEffect)
     ∈ listeners (constructor w).
Proof.
  unfold constructor.
  set (w0 := registerEventController _).
  pose proof (registerInteractions_frame w0) as Hf.
  unfold beyond_handlers in Hf.
  injection Hf as Hstore _ _ _ _ Hl _ Hi Hh He Hd.
  unfold addEventListener. case_bool_decide as Hin; cbn.
  - rewrite Hstore, Hd, Hi, Hh, He. by repeat split.
  - rewrite Hstore, Hd, Hi, Hh, He. repeat split.
    apply elem_of_app. right. apply list_elem_of_here.
Qed.

(** ** The default state and the recorded cells *)

(** What [setInteractedCells] does to the default-state object when that
    object is the current state. *)
Lemma setInteractedCells_writes_defaultState `{HostEnv} cell w :
  getStateRef w = DefaultState ->
  (forall r w', defaultState (controller_setState r w') = defaultState w') ->
  defaultState (setInteractedCells cell w)
  = InteractionStateInfo.with_interactedCells
      (Some (getInteractedCells w ++ [cell])) (defaultState w).
Proof.
  intros Href Hctl. unfold setInteractedCells, setState. rewrite Href. cbn.
  by rewrite Hctl.
Qed.

(** C9: the code at the failing input.  On a new interaction nothing is
    stored and [getState] answers [{ cells: [], force: false }].  After
    [setInteractedCells], which writes into the default-state object it was
    handed, [resetState] puts that object back and [getState] answers
    [{ cells: [], force: false, interactedCells: [cellA] }]: the default
    state is not restored.  When a state object is stored, the same two
    calls do restore [{ cells: [], force: false }]. *)
Lemma getState_default_mutated :
  store Sample.fresh = None
  /\ getState Sample.fresh
     = InteractionStateInfo.mk None (Some []) None None (Some false) None
  /\ (let w :=
        resetState
          (setInteractedCells (H := modelEnv) Sample.cellA Sample.fresh)
      in
      getState w
      = InteractionStateInfo.mk None (Some []) (Some [Sample.cellA]) None
          (Some false) None
      /\ getState w
         <> InteractionStateInfo.mk None (Some []) None None (Some false) None)
  /\ (let w :=
        resetState
          (setInteractedCells (H := modelEnv) Sample.cellA
             Sample.bothSelected)
      in
      getState w
      = InteractionStateInfo.mk None (Some []) None None (Some false) None
      /\ getInteractedCells w = []).
Proof. repeat split. discriminate. Qed.


(** ** The layout hook *)

(** C10: [handleLayoutHook] is total.  With a configuration that has a
    [layout] callback it makes exactly one call,
    [layout(facetCfg.spreadsheet, rowNode, colNode)], and ends as that call
    ends; with no configuration, or one without [layout], it calls nothing
    and returns normally with the host unchanged. *)
Theorem handleLayoutHook_total :
  forall (SpreadSheet Host : Type)
         (facetCfg : option (@LayoutHook.SpreadsheetFacetCfg SpreadSheet Host))
         (rowNode colNode : Node.t) (h : Host),
    match facetCfg with
    | Some cfg =>
        match LayoutHook.layout cfg with
        | Some layout =>
            LayoutHook.handleLayoutHook facetCfg rowNode colNode h
            = ([(LayoutHook.spreadsheet cfg, rowNode, colNode)],
               layout (LayoutHook.spreadsheet cfg) rowNode colNode h)
        | None =>
            LayoutHook.handleLayoutHook facetCfg rowNode colNode h
            = ([], Some h)
        end
    | None =>
        LayoutHook.handleLayoutHook facetCfg rowNode colNode h = ([], Some h)
    end.
Proof.
  intros SpreadSheet Host [[sheet [layout|]]|] rowNode colNode h; reflexivity.
Qed.

(** ** Clicks on link-field text of a column cell *)

Lemma Object_assign_lookup target source k :
  Object_assign target source !! k
  = match source ≫= (fun s => s !! k) with
    | Some v => Some v
    | None => target !! k
    end.
Proof.
  destruct source as [source|]; cbn.
  - rewrite lookup_union. destruct (source !! k), (target !! k); done.
  - done.
Qed.

(** C7, as stated, fails: when the row data has a [rowIndex] property of its
    own, [Object.assign] writes it over the cell's [rowIndex], so the record
    is not the data extended with the cell's [rowIndex]. *)
Lemma link_field_jump_record_keeps_data_rowIndex :
  let data : gmap string JsValue := {[ "rowIndex"%string := Number 5 ]} in
  let cellData := ColumnTextClick.mkCellData (Str "city") (Some data) (Some 2) in
  exists jump,
    ColumnTextClick.onColCellClick (fun _ : unit => true)
      (fun _ => ColumnTextClick.mkAppendInfo (Some cellData)) tt
    = ColumnTextClick.Emitted [jump]
    /\ ColumnTextClick.record jump !! "rowIndex"%string = Some (Number 5)
    /\ ColumnTextClick.record jump <> <[ "rowIndex"%string := Number 2 ]> data.
Proof.
  cbn zeta. eexists. split; [reflexivity|]. cbn. split.
  - by rewrite lookup_union, lookup_singleton_eq.
  - intros Heq.
    apply (f_equal (fun m : gmap string JsValue => m !! "rowIndex"%string)) in Heq.
    rewrite lookup_union, lookup_insert_eq, !lookup_singleton_eq in Heq.
    discriminate Heq.
Qed.

(** C7, amended: on a [COL_CELL_CLICK] event the handler emits
    [GLOBAL_LINK_FIELD_JUMP] exactly when the target is link-field text (and
    then once, provided the target's append info carries [cellData];
    without it the handler ends in a type error before emitting).  The
    event carries the cell data, its [valueField] as [field], and as
    [record] the object [{ rowIndex: cellData.rowIndex }] with the properties
    of the cell data's [data] written over it: this is [data] extended with
    the cell's [rowIndex] whenever [data] has no [rowIndex] of its own. *)
Theorem link_field_jump_on_col_cell_click :
  forall (Target : Type) (isLinkFieldText : Target -> bool)
         (getCellAppendInfo : Target -> ColumnTextClick.AppendInfo)
         (target : Target),
    let outcome :=
      ColumnTextClick.onColCellClick isLinkFieldText getCellAppendInfo target in
    if isLinkFieldText target then
      match ColumnTextClick.cellData (getCellAppendInfo target) with
      | None => outcome = ColumnTextClick.Thrown TypeError
      | Some cellData =>
          let data := ColumnTextClick.data cellData in
          let rowIndex :=
            ColumnTextClick.of_number (ColumnTextClick.rowIndex cellData) in
          exists jump,
            outcome = ColumnTextClick.Emitted [jump]
            /\ ColumnTextClick.jump_cellData jump = cellData
            /\ ColumnTextClick.field jump = ColumnTextClick.valueField cellData
            /\ (forall k,
                  ColumnTextClick.record jump !! k
                  = match data ≫= (fun d => d !! k) with
                    | Some v => Some v
                    | None =>
                        if decide (k = "rowIndex"%string) then Some rowIndex
                        else None
                    end)
            /\ (data ≫= (fun d => d !! "rowIndex"%string) = None ->
                ColumnTextClick.record jump
                = <[ "rowIndex"%string := rowIndex ]> (default ∅ data))
      end
    else outcome = ColumnTextClick.Emitted [].
Proof.
  intros Target isLinkFieldText getCellAppendInfo target outcome.
  subst outcome. unfold ColumnTextClick.onColCellClick.
  destruct (isLinkFieldText target); [|done].
  unfold ColumnTextClick.emitLinkFieldClickEvent.
  destruct (ColumnTextClick.cellData (getCellAppendInfo target))
    as [cellData|]; [|done].
  cbn zeta. eexists. split; [reflexivity|]. cbn.
  split; [done|]. split; [done|]. split.
  - intros k. rewrite Object_assign_lookup.
    destruct (ColumnTextClick.data cellData ≫= _); [done|].
    destruct (decide (k = "rowIndex"%string)) as [->|Hne].
    + by rewrite lookup_singleton_eq.
    + by rewrite lookup_singleton_ne.
  - intros Hnone. apply map_eq. intros k.
    rewrite Object_assign_lookup.
    destruct (ColumnTextClick.data cellData) as [d|]; cbn in *.
    + destruct (decide (k = "rowIndex"%string)) as [->|Hne].
      * by rewrite Hnone, lookup_singleton_eq, lookup_insert_eq.
      * rewrite lookup_insert_ne by done.
        rewrite lookup_singleton_ne by done. by destruct (d !! k).
    + destruct (decide (k = "rowIndex"%string)) as [->|Hne].
      * by rewrite lookup_singleton_eq, lookup_insert_eq.
      * by rewrite lookup_singleton_ne, lookup_insert_ne.
Qed.

(** ** Changing the state *)

(** A call whose state is not an empty SELECTED one never nests. *)
Lemma changeStateN_unguarded `{HostEnv} depth info w :
  default [] (InteractionStateInfo.cells info) <> []
  \/ InteractionStateInfo.stateName info <> Some InteractionStateName.SELECTED ->
  changeStateN (S depth) info w = Normal tt (changeState_apply info w).
Proof.
  intros Hguard. cbn.
  destruct (bool_decide_reflect
              (default [] (InteractionStateInfo.cells info) = []));
    destruct (bool_decide_reflect
                (InteractionStateInfo.stateName info
                 = Some InteractionStateName.SELECTED));
    cbn; try reflexivity.
  tauto.
Qed.

(** [changeState] always completes: two levels of calls are enough. *)
Lemma changeState_completes `{HostEnv} info w :
  exists w', changeState info w = Normal tt w'.
Proof.
  unfold changeState. cbn.
  destruct (bool_decide _ && bool_decide _); [|by eexists].
  destruct (truthy _); by eexists.
Qed.

(** C3: [changeState] with no cells and the state name SELECTED.  Without
    [force] the call returns at once and nothing at all has changed: no
    clear, no set, no redraw.  With [force] it makes one nested call, with
    the state name UNSELECTED and no cells (one level of calls is not enough,
    two are), and the nested call does not nest again: it runs the body
    after the guard, whatever depth it is given. *)
Theorem changeState_empty_selected :
  forall (E : HostEnv) (info : InteractionStateInfo.t) (w : World)
         (depth : nat),
    default [] (InteractionStateInfo.cells info) = [] ->
    InteractionStateInfo.stateName info = Some InteractionStateName.SELECTED ->
    if truthy (InteractionStateInfo.force info) then
      changeStateN 1 info w = Unfinished
      /\ changeStateN (S (S depth)) info w = changeStateN (S depth) unselected w
      /\ changeStateN (S depth) unselected w
         = Normal tt (changeState_apply unselected w)
      /\ changeState info w = Normal tt (changeState_apply unselected w)
    else
      changeStateN (S depth) info w = Normal tt w
      /\ changeState info w = Normal tt w.
Proof.
  intros E info w depth Hcells Hname.
  assert (Hinner : forall d, changeStateN (S d) unselected w
                             = Normal tt (changeState_apply unselected w)).
  { intros d. apply changeStateN_unguarded. right. discriminate. }
  assert (Houter : forall d, changeStateN (S d) info w
                             = if truthy (InteractionStateInfo.force info)
                               then bind (changeStateN d unselected)
                                      (fun _ => ret tt) w
                               else Normal tt w).
  { intros d. cbn. rewrite !bool_decide_eq_true_2 by done. cbn.
    by destruct (truthy (InteractionStateInfo.force info)). }
  unfold changeState.
  destruct (truthy (InteractionStateInfo.force info)).
  - repeat apply conj.
    + by rewrite Houter.
    + rewrite Houter. unfold bind. by rewrite Hinner.
    + apply Hinner.
    + rewrite Houter. unfold bind. by rewrite Hinner.
  - split; by rewrite Houter.
Qed.

(** The forced call on a new interaction. *)
Lemma changeState_empty_selected_forced :
  let info :=
    InteractionStateInfo.mk (Some InteractionStateName.SELECTED) (Some [])
      None None (Some true) None in
  changeStateN (H := modelEnv) 1 info Sample.fresh = Unfinished
  /\ changeStateN (H := modelEnv) 2 info Sample.fresh
     = changeStateN (H := modelEnv) 1 unselected Sample.fresh
  /\ changeStateN (H := modelEnv) 1 unselected Sample.fresh
     = Normal tt (changeState_apply (H := modelEnv) unselected Sample.fresh)
  /\ changeState (H := modelEnv) info Sample.fresh
     = Normal tt (changeState_apply (H := modelEnv) unselected Sample.fresh).
Proof.
  exact (changeState_empty_selected modelEnv
           (InteractionStateInfo.mk (Some InteractionStateName.SELECTED)
              (Some []) None None (Some true) None)
           Sample.fresh 0 eq_refl eq_refl).
Defined.

Lemma updateCells_spec cells w :
  updateCells cells w = set_trace (trace w ++ map Update (default [] cells)) w.
Proof. unfold updateCells. apply forEach_perform. Qed.

Lemma draw_spec w : draw w = set_trace (trace w ++ [Render]) w.
Proof. reflexivity. Qed.

(** With no [onUpdateCells], the body of [changeState] is the controller's
    work followed by host calls only. *)
Lemma changeState_apply_spec `{HostEnv} info w :
  InteractionStateInfo.onUpdateCells info = None ->
  exists w2 t,
    changeState_apply info w
    = set_trace t (controller_setState (StateObject info) w2).
Proof.
  intros Hcb. unfold changeState_apply, setState. rewrite Hcb.
  unfold updateAllDataCells. rewrite draw_spec, updateCells_spec. cbn.
  by eexists _, _.
Qed.

(** ** Selecting everything *)

(** C4: after [selectAll], provided the state controller's [setState]
    makes the state it is given the current one (by name), the current state
    name is ALL_SELECTED, so [isAllSelectedState] and [isSelectedState] both
    answer true; the HOVER intercept is present; and the last calls made are
    [update()] on every cell the facet returns, in order. *)
Theorem selectAll_all_selected :
  forall (E : HostEnv) (w : World),
    (forall info w0,
        getCurrentStateName (controller_setState (StateObject info) w0)
        = InteractionStateInfo.stateName info) ->
    exists w',
      selectAll w = Normal tt w'
      /\ getCurrentStateName w' = Some InteractionStateName.ALL_SELECTED
      /\ isAllSelectedState w' = true
      /\ isSelectedState w' = true
      /\ hasIntercepts (Some [InterceptType.HOVER]) w' = true
      /\ exists earlier,
           trace w' = earlier ++ map Update (Facet.getCells (facet w')).
Proof.
  intros E w Hset. unfold selectAll, changeState, bind.
  rewrite changeStateN_unguarded by (right; discriminate).
  unfold run.
  destruct (changeState_apply_spec
              (InteractionStateInfo.mk
                 (Some InteractionStateName.ALL_SELECTED)
                 None None None None None) w eq_refl) as (w2 & t & ->).
  rewrite addIntercepts_spec, updateCells_spec.
  eexists. split; [reflexivity|].
  specialize (Hset (InteractionStateInfo.mk
                      (Some InteractionStateName.ALL_SELECTED)
                      None None None None None) w2).
  cbn in Hset.
  set (w3 := controller_setState _ w2) in *.
  assert (Hname : forall t1 i t2,
             getCurrentStateName (set_trace t2 (set_intercepts i (set_trace t1 w3)))
             = Some InteractionStateName.ALL_SELECTED).
  { intros. by rewrite <- Hset. }
  repeat apply conj.
  - apply Hname.
  - unfold isAllSelectedState, isStateOf. apply bool_decide_eq_true, Hname.
  - apply isSelectedState_true. exists InteractionStateName.ALL_SELECTED.
    split; [|apply Hname]. unfold selectedStateNames. set_solver.
  - apply (hasIntercepts_true (Some [InterceptType.HOVER])).
    exists InterceptType.HOVER. cbn. set_solver.
  - cbn. by eexists.
Qed.

(** [selectAll] on a new interaction, with the modelled state controller. *)
Lemma selectAll_all_selected_fresh :
  exists w',
    selectAll (H := modelEnv) Sample.fresh = Normal tt w'
    /\ getCurrentStateName w' = Some InteractionStateName.ALL_SELECTED
    /\ isAllSelectedState w' = true
    /\ isSelectedState w' = true
    /\ hasIntercepts (Some [InterceptType.HOVER]) w' = true
    /\ exists earlier,
         trace w' = earlier ++ map Update (Facet.getCells (facet w')).
Proof.
  apply (selectAll_all_selected modelEnv Sample.fresh).
  intros info w0. reflexivity.
Defined.

(** ** Changing a cell *)

Lemma filter_eq_nil {A} (P : A -> Prop) `{!forall x, Decision (P x)}
    (l : list A) :
  filter P l = [] <-> forall x, x ∈ l -> ~ P x.
Proof.
  split.
  - intros Hnil x Hx HP.
    assert (Hin : x ∈ filter P l) by by apply list_elem_of_filter.
    rewrite Hnil in Hin. by apply elem_of_nil in Hin.
  - intros Hall. apply elem_of_nil_inv. intros x Hx.
    apply list_elem_of_filter in Hx as [HP Hx]. by apply (Hall x).
Qed.

(** After [reset] no intercept is left and the hover timer is no longer
    pending, whatever the state controller did. *)
Lemma reset_clears `{HostEnv} w :
  intercepts (reset w) = ∅
  /\ forall timer, hoverTimer (reset w) = Some timer -> timer ∉ timers (reset w).
Proof.
  unfold reset, clearHoverTimer. split; [done|].
  intros timer. cbn. destruct (hoverTimer (clearState w)) eqn:Ht; cbn.
  - rewrite Ht. intros [= ->]. set_solver.
  - by rewrite Ht.
Qed.

(** C1, as stated, fails: rows a and b are selected and [changeCell] is
    called on row a (a cell with a meta and an [x]) without multi-selection.
    Removing a would leave b selected, yet the call resets and its result is
    not [true]. *)
Lemma changeCell_on_selected_cell_returns_nothing :
  let options :=
    ChangeCellOptions.mk (Some Sample.cellA) None None None in
  S2CellType.getMeta Sample.cellA = Some Sample.nodeA
  /\ Node.x Sample.nodeA = Some 0
  /\ isSelectedCell Sample.cellA Sample.bothSelected
     = Normal true Sample.bothSelected
  /\ filter (fun c => CellMeta.id c ≠ Node.id Sample.nodeA)
       (getCells None Sample.bothSelected)
     = [Sample.metaB]
  /\ exists w',
       changeCell (H := modelEnv) (Some options) Sample.bothSelected
       = Normal None w'.
Proof.
  cbn zeta. repeat apply conj; try reflexivity.
  eexists. vm_compute. reflexivity.
Qed.

(** Adding intercepts does not change what is selected. *)
Lemma isSelectedCell_addIntercepts cell m L w b :
  S2CellType.getMeta cell = Some m ->
  isSelectedCell cell w = Normal b w ->
  isSelectedCell cell (addIntercepts L w) = Normal b (addIntercepts L w).
Proof.
  intros Hm Hb. rewrite addIntercepts_spec.
  set (w0 := set_intercepts _ w).
  destruct (isSelectedCell_meta cell m w Hm) as (b1 & Hb1 & Hiff1).
  destruct (isSelectedCell_meta cell m w0 Hm) as (b0 & Hb0 & Hiff0).
  rewrite Hb0. f_equal.
  assert (b1 = b) as -> by congruence.
  assert (Hsame : b0 = true <-> b = true) by (rewrite Hiff1; exact Hiff0).
  destruct b0, b; naive_solver.
Qed.

(** C1, amended: for a cell with a meta that has an [x], [changeCell]
    completes, and the last thing it does is emit [GLOBAL_SELECTED] with the
    active cells of that moment.  Its result is [true], except when the cell
    is already selected and either multi-selection is not in effect or every
    recorded cell has the cell's id (removing it leaves none): then the
    result is undefined, and what precedes the emission is [reset] (after
    the HOVER intercept was added), which leaves no intercept and no pending
    hover timer. *)
Theorem changeCell_emits_global_selected :
  forall (E : HostEnv) (options : ChangeCellOptions.t) (cell : S2CellType.t)
         (meta : Node.t) (w : World),
    ChangeCellOptions.cell options = Some cell ->
    S2CellType.getMeta cell = Some meta ->
    is_Some (Node.x meta) ->
    let multi :=
      truthy (ChangeCellOptions.isMultiSelection options) && isSelectedState w in
    exists (selected : bool) (result : option bool) (w1 : World),
      isSelectedCell cell w = Normal selected w
      /\ changeCell (Some options) w
         = Normal result (emit_GLOBAL_SELECTED (getActiveCells w1) w1)
      /\ (result = None \/ result = Some true)
      /\ (result = None
          <-> selected = true
              /\ (multi = false
                  \/ forall c, c ∈ getCells None w ->
                               CellMeta.id c = Node.id meta))
      /\ (result = None ->
          w1 = reset (addIntercepts (Some [InterceptType.HOVER]) w)
          /\ intercepts w1 = ∅
          /\ forall timer, hoverTimer w1 = Some timer -> timer ∉ timers w1).
Proof.
  intros E options cell meta w Hcell Hmeta [x Hx] multi.
  destruct (isSelectedCell_meta cell meta w Hmeta) as (selected & Hsel & _).
  exists selected.
  pose proof (isSelectedCell_addIntercepts cell meta
                (Some [InterceptType.HOVER]) w selected Hmeta Hsel) as Hsel0.
  unfold changeCell. cbn [default from_option id]. rewrite Hcell, Hmeta, Hx.
  unfold bind at 1. unfold run at 1. unfold bind at 1. rewrite Hsel0.
  set (w0 := addIntercepts (Some [InterceptType.HOVER]) w) in *.
  assert (Hmulti : truthy (ChangeCellOptions.isMultiSelection options)
                   && isSelectedState w0 = multi).
  { subst w0. by rewrite addIntercepts_spec. }
  assert (Hcells : default [] (InteractionStateInfo.cells (getState w0))
                   = getCells None w).
  { subst w0. by rewrite addIntercepts_spec. }
  rewrite Hmulti, Hcells.
  assert (Hreset : forall w1,
             w1 = reset w0 ->
             w1 = reset w0 /\ intercepts w1 = ∅
             /\ forall timer, hoverTimer w1 = Some timer -> timer ∉ timers w1).
  { intros w1 ->. split; [done|]. apply reset_clears. }
  assert (Hdone : forall (cells : list CellMeta.t) info
                         (k : World -> World),
             exists result w1,
               bind (changeState info)
                 (fun _ w2 =>
                    Normal (Some true)
                      (emit_GLOBAL_SELECTED (getActiveCells (k w2)) (k w2))) w0
               = Normal result (emit_GLOBAL_SELECTED (getActiveCells w1) w1)
               /\ result = Some true).
  { intros _ info k. destruct (changeState_completes info w0) as (w2 & Hw2).
    unfold bind. rewrite Hw2. by eexists _, _. }
  destruct selected, multi eqn:Hm.
  - (* selected, multi-selection *)
    rewrite app_nil_r.
    destruct (filter _ (getCells None w)) as [|c rest] eqn:Hfilter.
    + exists None, (reset w0). split; [done|]. split; [done|].
      split; [by left|]. split; [|by auto]. split; [|done]. intros _.
      split; [done|]. right. intros c Hc.
      apply filter_eq_nil with (x := c) in Hfilter; [|done].
      by destruct (decide (CellMeta.id c = Node.id meta)).
    + match goal with
      | |- context [bind (changeState ?i) (fun _ w2 => Normal _ (emit_GLOBAL_SELECTED _ (@?k w2)))] =>
          destruct (Hdone [] i k) as (result & w1 & Hrun & ->)
      end.
      exists (Some true), w1. split; [done|]. split; [exact Hrun|].
      split; [by right|]. split; [|done]. split; [done|].
      intros (_ & [?|Hall]); [done|].
      assert (Hnil : filter (fun c => CellMeta.id c ≠ Node.id meta)
                       (getCells None w) = []).
      { apply filter_eq_nil. intros c' Hc' Hne. by apply Hne, Hall. }
      congruence.
  - (* selected, single selection *)
    exists None, (reset w0). split; [done|]. split; [done|].
    split; [by left|]. split; [|by auto]. split; [|done]. intros _.
    split; [done|]. by left.
  - (* not selected, multi-selection *)
    destruct (getCells None w ++ [getCellMeta cell]) as [|c rest] eqn:Happ.
    { by apply app_eq_nil in Happ as [_ ?]. }
    match goal with
    | |- context [bind (changeState ?i) (fun _ w2 => Normal _ (emit_GLOBAL_SELECTED _ (@?k w2)))] =>
        destruct (Hdone [] i k) as (result & w1 & Hrun & ->)
    end.
    exists (Some true), w1. split; [done|]. split; [exact Hrun|].
    split; [by right|]. split; [|done]. split; [done|]. by intros [? _].
  - (* not selected, single selection *)
    match goal with
    | |- context [bind (changeState ?i) (fun _ w2 => Normal _ (emit_GLOBAL_SELECTED _ (@?k w2)))] =>
        destruct (Hdone [] i k) as (result & w1 & Hrun & ->)
    end.
    exists (Some true), w1. split; [done|]. split; [exact Hrun|].
    split; [by right|]. split; [|done]. split; [done|]. by intros [? _].
Qed.

(** [changeCell] on row a of a new interaction, where nothing is selected. *)
Lemma changeCell_emits_global_selected_fresh :
  let options := ChangeCellOptions.mk (Some Sample.cellA) None None None in
  exists (selected : bool) (result : option bool) (w1 : World),
    isSelectedCell Sample.cellA Sample.fresh = Normal selected Sample.fresh
    /\ changeCell (H := modelEnv) (Some options) Sample.fresh
       = Normal result (emit_GLOBAL_SELECTED (getActiveCells w1) w1)
    /\ (result = None \/ result = Some true)
    /\ (result = None
        <-> selected = true
            /\ (truthy None && isSelectedState Sample.fresh = false
                \/ forall c, c ∈ getCells None Sample.fresh ->
                             CellMeta.id c = Node.id Sample.nodeA))
    /\ (result = None ->
        w1 = reset (H := modelEnv)
               (addIntercepts (Some [InterceptType.HOVER]) Sample.fresh)
        /\ intercepts w1 = ∅
        /\ forall timer, hoverTimer w1 = Some timer -> timer ∉ timers w1).
Proof.
  exact (changeCell_emits_global_selected modelEnv
           (ChangeCellOptions.mk (Some Sample.cellA) None None None)
           Sample.cellA Sample.nodeA Sample.fresh
           eq_refl eq_refl (ex_intro _ 0 eq_refl)).
Defined.

(** ** The visibility-change listener *)

Lemma triggerInteractionsResetEffect_spec w :
  triggerInteractionsResetEffect w
  = set_trace
      (trace w ++ map (fun handler => HandlerReset handler.1) (interactions w))
      w.
Proof.
  unfold triggerInteractionsResetEffect.
  generalize (interactions w) as handlers. intros handlers. revert w.
  induction handlers as [|[key cls] handlers IH]; intros w.
  - cbn. rewrite app_nil_r. by destruct w.
  - rewrite forEach_cons, IH. unfold perform, set_trace. cbn.
    by rewrite <- app_assoc.
Qed.

Lemma callListener_spec type entry w :
  (if bool_decide (entry.1 = type) then callListener entry.2 w else w)
  = set_trace (trace w ++ listener_calls type w entry) w.
Proof.
  unfold listener_calls. destruct entry as [t l]. cbn.
  case_bool_decide.
  - destruct l; cbn.
    + apply triggerInteractionsResetEffect_spec.
    + reflexivity.
  - rewrite app_nil_r. by destruct w.
Qed.

Lemma dispatchEvent_spec type w :
  dispatchEvent type w
  = set_trace (trace w ++ flat_map (listener_calls type w) (listeners w)) w.
Proof.
  unfold dispatchEvent.
  generalize (listeners w) as entries. intros entries. revert w.
  induction entries as [|[t l] entries IH]; intros w.
  - cbn. rewrite app_nil_r. by destruct w.
  - pose proof (callListener_spec type (t, l) w) as Hstep.
    cbn [fst snd] in Hstep. rewrite forEach_cons. cbv beta iota.
    rewrite Hstep, IH.
    unfold set_trace. cbn. by rewrite <- app_assoc.
Qed.

Lemma destroy_spec w :
  destroy w
  = set_listeners
      (filter (fun e => e ≠ ("visibilitychange"%string,
                             onTriggerInteractionsResetEffect))
              (listeners w))
      (set_store (Some DefaultState)
         (clearHoverTimer
            (set_eventController Cleared
               (set_intercepts ∅ (set_interactions [] w))))).
Proof.
  unfold destroy, removeEventListener, resetState, clearHoverTimer. cbn.
  by destruct (hoverTimer w).
Qed.

Ltac destroy_field w :=
  rewrite destroy_spec; unfold clearHoverTimer; cbn;
  by destruct (hoverTimer w).

(** C6: the constructor registers [onTriggerInteractionsResetEffect] for
    [visibilitychange]; when the event is dispatched, that listener calls
    [reset()] on every registered handler, in order.  [destroy] empties the
    handler map and the intercept set, clears the event controller, cancels
    the hover timer, puts the default state back, and removes that very
    listener, leaving the others in place; a [visibilitychange] event
    dispatched afterwards reaches foreign listeners only and resets no
    handler. *)
Theorem visibilitychange_listener_lifecycle :
  forall (E : HostEnv) (w : World),
    let visibilitychange := "visibilitychange"%string in
    let listener := (visibilitychange, onTriggerInteractionsResetEffect) in
    (* the constructor *)
    listener ∈ listeners (constructor w)
    /\ callListener onTriggerInteractionsResetEffect w
       = set_trace
           (trace w
            ++ map (fun handler => HandlerReset handler.1) (interactions w))
           w
    /\ (forall key cls,
          (key, cls) ∈ interactions (constructor w) ->
          HandlerReset key
          ∈ trace (dispatchEvent visibilitychange (constructor w)))
    (* destroy *)
    /\ interactions (destroy w) = []
    /\ intercepts (destroy w) = ∅
    /\ eventController (destroy w) = Cleared
    /\ (forall timer, hoverTimer w = Some timer -> timer ∉ timers (destroy w))
    /\ store (destroy w) = Some DefaultState
    /\ getState (destroy w) = defaultState w
    /\ listener ∉ listeners (destroy w)
    /\ (forall other, other <> listener ->
          other ∈ listeners (destroy w) <-> other ∈ listeners w)
    /\ trace (destroy w) = trace w
    (* a later visibility change *)
    /\ exists calls,
         dispatchEvent visibilitychange (destroy w)
         = set_trace (trace w ++ calls) (destroy w)
         /\ Forall (fun call => exists n, call = ForeignListener n) calls.
Proof.
  intros E w visibilitychange listener.
  destruct (constructor_frame w) as (_ & _ & _ & _ & _ & Hin).
  assert (Htimer : forall timer,
             hoverTimer w = Some timer -> timer ∉ timers (destroy w)).
  { intros timer Ht. rewrite destroy_spec. unfold clearHoverTimer. cbn.
    rewrite Ht. cbn. set_solver. }
  assert (Hstate : getState (destroy w) = defaultState w) by destroy_field w.
  assert (Htrace : trace (destroy w) = trace w) by destroy_field w.
  assert (Hempty : interactions (destroy w) = []) by destroy_field w.
  assert (Hicpt : intercepts (destroy w) = ∅) by destroy_field w.
  assert (Hctl : eventController (destroy w) = Cleared) by destroy_field w.
  assert (Hstore : store (destroy w) = Some DefaultState) by destroy_field w.
  repeat apply conj; try assumption.
  - apply triggerInteractionsResetEffect_spec.
  - intros key cls Hkey. rewrite dispatchEvent_spec. cbn.
    apply elem_of_app. right.
    apply list_elem_of_In, in_flat_map. exists listener. split.
    + by apply list_elem_of_In.
    + unfold listener_calls, listener. cbn.
      rewrite bool_decide_eq_true_2 by done.
      apply in_map_iff. exists (key, cls). split; [done|].
      by apply list_elem_of_In.
  - rewrite destroy_spec. cbn. intros Hl.
    by apply list_elem_of_filter in Hl as [Hne _].
  - intros other Hne. rewrite destroy_spec. cbn.
    rewrite list_elem_of_filter. tauto.
  - rewrite dispatchEvent_spec, Htrace. eexists. split; [reflexivity|].
    apply Forall_forall. intros call Hcall.
    apply list_elem_of_In, in_flat_map in Hcall as ([t l] & _ & Hcall).
    unfold listener_calls in Hcall. rewrite Hempty in Hcall. cbn in Hcall.
    destruct (bool_decide (t = visibilitychange)); [|done].
    destruct l; cbn in Hcall; [done|].
    destruct Hcall as [<-|[]]. by eexists.
Qed.

(** * Further properties of the class *)

Import RootInteractionMore.

(** ** Intercepts, composed *)

(** X1: adding a list of intercepts twice is the same as adding it once;
    after removing a list, [hasIntercepts] on it answers false; after adding
    a non-empty list, [hasIntercepts] on it answers true; and removing what
    was just added leaves the previous intercepts without the list's
    elements. *)
Theorem intercepts_compose :
  forall (w : World) (L : list InterceptType.t),
    addIntercepts (Some L) (addIntercepts (Some L) w) = addIntercepts (Some L) w
    /\ hasIntercepts (Some L) (removeIntercepts (Some L) w) = false
    /\ (L = [] \/ hasIntercepts (Some L) (addIntercepts (Some L) w) = true)
    /\ removeIntercepts (Some L) (addIntercepts (Some L) w)
       = removeIntercepts (Some L) w.
Proof.
  intros w L. repeat apply conj.
  - rewrite !addIntercepts_spec. unfold set_intercepts. cbn. f_equal.
    set_solver.
  - apply not_true_is_false. intros Hhas.
    apply (hasIntercepts_true (Some L)) in Hhas as (x & Hx & Hin).
    rewrite removeIntercepts_spec in Hin. cbn in Hx, Hin. set_solver.
  - destruct L as [|x L]; [by left|right].
    apply (hasIntercepts_true (Some (x :: L))). exists x.
    rewrite addIntercepts_spec. cbn. set_solver.
  - rewrite !removeIntercepts_spec, addIntercepts_spec.
    unfold set_intercepts. cbn. f_equal. set_solver.
Qed.

(** ** The hover timer *)

(** X2: [getHoverTimer] answers the timer last given to [setHoverTimer].
    [clearHoverTimer] cancels that timer and no other, and leaves the field
    as it is, so [getHoverTimer] still answers the cancelled timer;
    clearing twice is the same as clearing once. *)
Theorem hoverTimer_set_clear :
  forall (w : World) (timer : Z),
    getHoverTimer (setHoverTimer timer w) = Some timer
    /\ getHoverTimer (clearHoverTimer w) = getHoverTimer w
    /\ (timer ∉ timers (clearHoverTimer (setHoverTimer timer w)))
    /\ (forall other, other <> timer ->
          other ∈ timers (clearHoverTimer (setHoverTimer timer w))
          <-> other ∈ timers w)
    /\ clearHoverTimer (clearHoverTimer w) = clearHoverTimer w.
Proof.
  intros w timer. unfold getHoverTimer, clearHoverTimer, setHoverTimer.
  split; [|split; [|split; [|split]]].
  - done.
  - destruct (hoverTimer w) eqn:Ht; cbn; by rewrite ?Ht.
  - cbn. set_solver.
  - intros other Hne. cbn. set_solver.
  - destruct (hoverTimer w) as [t|] eqn:Ht; cbn; rewrite ?Ht; [|done].
    unfold set_timers. cbn. f_equal. set_solver.
Qed.

(** ** The state predicates *)

Lemma isAllSelectedState_isSelectedState w :
  isAllSelectedState w = true -> isSelectedState w = true.
Proof.
  unfold isAllSelectedState, isStateOf.
  intros Hall%bool_decide_eq_true. apply isSelectedState_true.
  exists InteractionStateName.ALL_SELECTED. split; [|done].
  unfold selectedStateNames. set_solver.
Qed.

(** X3: the state predicates read one state name, so they exclude each
    other: the all-selected state is a selected state; a hover state is
    neither a selected nor a hover-focus state; a hover-focus state is not a
    selected state; with no state name none of them holds.
    [isEqualStateName] agrees with them, and with no name given it answers
    true exactly when the state has no name. *)
Theorem state_predicates_exclusive :
  forall (w : World),
    (isAllSelectedState w = true -> isSelectedState w = true)
    /\ (isHoverState w = true ->
        isSelectedState w = false /\ isHoverFocusState w = false)
    /\ (isHoverFocusState w = true -> isSelectedState w = false)
    /\ (getCurrentStateName w = None ->
        isSelectedState w = false /\ isHoverState w = false
        /\ isHoverFocusState w = false /\ isAllSelectedState w = false)
    /\ (forall name, isEqualStateName (Some name) w = true
                     <-> getCurrentStateName w = Some name)
    /\ (isEqualStateName None w = true <-> getCurrentStateName w = None).
Proof.
  intros w.
  unfold isAllSelectedState, isHoverState, isHoverFocusState, isSelectedState,
    isEqualStateName, isStateOf, getCurrentStateName.
  split; [|split; [|split; [|split; [|split]]]].
  - apply isAllSelectedState_isSelectedState.
  - intros Hh%bool_decide_eq_true. rewrite Hh. cbn.
    by rewrite !bool_decide_eq_false_2 by discriminate.
  - intros Hh%bool_decide_eq_true. rewrite Hh. cbn.
    by rewrite !bool_decide_eq_false_2 by discriminate.
  - intros ->. cbn. by rewrite !bool_decide_eq_false_2 by discriminate.
  - intros name. apply bool_decide_eq_true.
  - apply bool_decide_eq_true.
Qed.

(** X4: [clearStyleIndependent] hides the interaction shape of every data
    cell, in order, when the state is a selected one or the hover state, and
    does nothing otherwise, for instance in the hover-focus state; it
    changes nothing but what the cells show. *)
Theorem clearStyleIndependent_when :
  forall (w : World),
    clearStyleIndependent w
    = (if isSelectedState w || isHoverState w
       then set_trace
              (trace w
               ++ map HideInteractionShape (Facet.getDataCells (facet w)))
              w
       else w)
    /\ (isHoverFocusState w = true -> clearStyleIndependent w = w).
Proof.
  intros w.
  pose proof (isAllSelectedState_isSelectedState w) as Hall.
  unfold clearStyleIndependent. rewrite forEach_perform.
  split.
  - destruct (isSelectedState w), (isHoverState w), (isAllSelectedState w);
      cbn; try reflexivity. by specialize (Hall eq_refl).
  - unfold isHoverFocusState, isSelectedState, isHoverState,
      isAllSelectedState, isStateOf.
    intros Hfocus%bool_decide_eq_true. rewrite Hfocus. cbn.
    by rewrite !bool_decide_eq_false_2 by discriminate.
Qed.

(** ** Highlighting nodes *)

(** X5: [highlightNodes] calls [updateByState] once for every node that
    belongs to a cell, in the order of the list and always with the state
    SELECTED; nodes without a cell are passed over, a missing list counts
    as empty, and nothing else changes. *)
Theorem highlightNodes_calls :
  forall (w : World) (nodes : option (list Node.t)),
    highlightNodes nodes w
    = set_trace
        (trace w
         ++ map (UpdateByState InteractionStateName.SELECTED)
              (omap Node.belongsCell (default [] nodes)))
        w.
Proof.
  intros w nodes. unfold highlightNodes.
  generalize (default [] nodes) as l. intros l. revert w.
  induction l as [|node l IH]; intros w.
  - cbn. rewrite app_nil_r. by destruct w.
  - rewrite forEach_cons, IH. cbn.
    destruct (Node.belongsCell node) as [cell|]; cbn; [|done].
    unfold set_trace. cbn. by rewrite <- app_assoc.
Qed.

(** ** Calls of [changeCell] that do nothing *)

(** X6: [changeCell] without options, without a cell, on a cell without a
    meta, or on a cell whose meta has no [x], returns undefined and changes
    nothing: no intercept is added, no state is changed, nothing is
    emitted. *)
Theorem changeCell_ignores_invalid_cell :
  forall (E : HostEnv) (w : World) (options : ChangeCellOptions.t),
    changeCell None w = Normal None w
    /\ match ChangeCellOptions.cell options with
       | None => changeCell (Some options) w = Normal None w
       | Some cell =>
           match S2CellType.getMeta cell with
           | None => changeCell (Some options) w = Normal None w
           | Some meta =>
               Node.x meta = None ->
               changeCell (Some options) w = Normal None w
           end
       end.
Proof.
  intros E w options. split; [reflexivity|].
  unfold changeCell. cbn [default from_option id].
  destruct (ChangeCellOptions.cell options) as [cell|]; [|reflexivity].
  destruct (S2CellType.getMeta cell) as [meta|]; [|reflexivity].
  by intros ->.
Qed.

(** ** Active cells *)

Lemma getActiveCells_cons_id (find_cell : string -> option S2CellType.t)
    (ids : list string) :
  (forall id cell, find_cell id = Some cell ->
                   Node.id <$> S2CellType.getMeta cell = Some id) ->
  omap (fun cell => Node.id <$> S2CellType.getMeta cell) (omap find_cell ids)
  `sublist_of` ids.
Proof.
  intros Hfind. induction ids as [|id ids IH]; cbn; [done|].
  destruct (find_cell id) as [cell|] eqn:Hcell; cbn.
  - rewrite (Hfind _ _ Hcell). by apply sublist_skip.
  - by apply sublist_cons.
Qed.

(** X7: [getActiveCells] answers cells of the facet only, each with a meta
    whose id is the id of a recorded cell; their ids follow the order in
    which the cells were recorded, a recorded cell the facet does not show
    is left out, and a recorded cell the facet shows is answered. *)
Theorem getActiveCells_visible_in_order :
  forall (w : World),
    let recorded := map CellMeta.id (getCells None w) in
    (forall cell, cell ∈ getActiveCells w ->
                  cell ∈ Facet.getCells (facet w)
                  /\ exists id, id ∈ recorded
                                /\ Node.id <$> S2CellType.getMeta cell = Some id)
    /\ omap (fun cell => Node.id <$> S2CellType.getMeta cell) (getActiveCells w)
       `sublist_of` recorded
    /\ (forall id cell,
          id ∈ recorded -> cell ∈ Facet.getCells (facet w) ->
          Node.id <$> S2CellType.getMeta cell = Some id ->
          exists cell', cell' ∈ getActiveCells w
                        /\ Node.id <$> S2CellType.getMeta cell' = Some id).
Proof.
  intros w recorded. unfold getActiveCells. fold recorded.
  set (find_cell := fun id =>
         List.find (fun cell =>
                      bool_decide (Node.id <$> S2CellType.getMeta cell = Some id))
                   (Facet.getCells (facet w))).
  assert (Hfind : forall id cell, find_cell id = Some cell ->
            cell ∈ Facet.getCells (facet w)
            /\ Node.id <$> S2CellType.getMeta cell = Some id).
  { intros id cell Hc. apply find_some in Hc as [Hin Hid].
    split; [by apply list_elem_of_In|by apply bool_decide_eq_true in Hid]. }
  split; [|split].
  - intros cell Hcell. apply list_elem_of_omap in Hcell as (id & Hid & Hc).
    destruct (Hfind _ _ Hc) as [Hin Hmeta]. split; [done|]. by exists id.
  - apply getActiveCells_cons_id. intros id cell Hc. by apply Hfind.
  - intros id cell Hid Hin Hmeta.
    destruct (find_cell id) as [cell'|] eqn:Hc.
    + exists cell'. split; [|by apply Hfind].
      apply list_elem_of_omap. by exists id.
    + apply list_elem_of_In in Hin.
      pose proof (find_none _ _ Hc cell Hin) as Hno. cbn in Hno.
      by rewrite bool_decide_eq_true_2 in Hno.
Qed.

(** ** Unselected data cells *)

Lemma isActiveCell_meta cell m w :
  S2CellType.getMeta cell = Some m ->
  isActiveCell cell w
  = Normal (bool_decide (Node.id m ∈ map CellMeta.id (getCells None w))) w.
Proof.
  intros Hm. unfold isActiveCell.
  destruct (find_by_meta_id_some cell m (getCells None w) Hm)
    as (found & -> & Hfound).
  f_equal. apply bool_decide_ext. rewrite Hfound. split.
  - intros (c & Hc & <-). by apply list_elem_of_fmap_2.
  - intros (c & -> & Hc)%list_elem_of_fmap. by exists c.
Qed.

Lemma isActiveCell_nothing_recorded cell w :
  getCells None w = [] -> isActiveCell cell w = Normal false w.
Proof. intros Hnil. unfold isActiveCell. by rewrite Hnil. Qed.

Lemma isActiveCell_no_meta cell w :
  S2CellType.getMeta cell = None -> getCells None w <> [] ->
  isActiveCell cell w = Throw TypeError w.
Proof.
  intros Hm Hrec. unfold isActiveCell. rewrite find_by_meta_id_none by done.
  by destruct (getCells None w).
Qed.

(** A filter whose test neither throws nor changes anything. *)
Lemma filterM_pure {A} (p : A -> M bool) (q : A -> bool) xs w :
  (forall x, x ∈ xs -> p x w = Normal (q x) w) ->
  filterM p xs w = Normal (List.filter q xs) w.
Proof.
  induction xs as [|x xs IH]; intros Hp; [done|].
  cbn. unfold bind at 1. rewrite (Hp x) by apply list_elem_of_here.
  unfold bind at 1. rewrite IH by (intros y Hy; by apply Hp, list_elem_of_further).
  by destruct (q x).
Qed.

(** A filter whose test throws at some element, and changes nothing before. *)
Lemma filterM_throws {A} (p : A -> M bool) xs w e :
  (forall x, x ∈ xs -> (exists b, p x w = Normal b w) \/ p x w = Throw e w) ->
  (exists x, x ∈ xs /\ p x w = Throw e w) ->
  filterM p xs w = Throw e w.
Proof.
  induction xs as [|x xs IH]; intros Hp (y & Hy & Hthrow).
  - by apply elem_of_nil in Hy.
  - cbn. unfold bind at 1.
    destruct (Hp x (list_elem_of_here _ _)) as [[b Hb]|Hx];
      [|by rewrite Hx].
    rewrite Hb. unfold bind at 1. rewrite IH; [done| |].
    + intros z Hz. by apply Hp, list_elem_of_further.
    + apply elem_of_cons in Hy as [->|Hy]; [congruence|by exists y].
Qed.

(** X8: [getUnSelectedDataCells] changes nothing.  When no cell is recorded
    it answers all data cells.  When every data cell has a meta it answers,
    in order, exactly the data cells whose id is not recorded.  When a cell
    is recorded and some data cell has no meta, it ends in a type error. *)
Theorem getUnSelectedDataCells_spec :
  forall (w : World),
    let recorded := map CellMeta.id (getCells None w) in
    let dataCells := Facet.getDataCells (facet w) in
    (recorded = [] -> getUnSelectedDataCells w = Normal dataCells w)
    /\ (Forall (fun cell => is_Some (S2CellType.getMeta cell)) dataCells ->
        getUnSelectedDataCells w
        = Normal
            (List.filter
               (fun cell =>
                  negb (bool_decide
                          (Node.id <$> S2CellType.getMeta cell
                           ∈ Some <$> recorded)))
               dataCells)
            w)
    /\ (forall cell,
          cell ∈ dataCells -> S2CellType.getMeta cell = None ->
          recorded <> [] ->
          getUnSelectedDataCells w = Throw TypeError w).
Proof.
  intros w recorded dataCells. unfold getUnSelectedDataCells.
  fold dataCells. split; [|split].
  - intros Hnil. apply fmap_nil_inv in Hnil.
    rewrite (filterM_pure _ (fun _ => true)).
    + f_equal. induction dataCells as [|c cs IH]; cbn; by rewrite ?IH.
    + intros cell _. unfold bind.
      by rewrite (isActiveCell_nothing_recorded cell w Hnil).
  - intros Hall. apply filterM_pure. intros cell Hcell.
    rewrite Forall_forall in Hall. destruct (Hall cell Hcell) as [m Hm].
    unfold bind. rewrite (isActiveCell_meta cell m w Hm), Hm. cbn.
    unfold ret. do 3 f_equal. apply bool_decide_ext. fold recorded. split.
    + intros Hin. by apply list_elem_of_fmap_2.
    + by intros (id & [= ->] & Hid)%list_elem_of_fmap.
  - intros cell Hcell Hm Hrec.
    assert (Hcells : getCells None w <> []).
    { intros Hnil. apply Hrec. unfold recorded. by rewrite Hnil. }
    apply filterM_throws.
    + intros c _. unfold bind.
      destruct (S2CellType.getMeta c) as [m|] eqn:Hc.
      * left. rewrite (isActiveCell_meta c m w Hc). by eexists.
      * right. by rewrite (isActiveCell_no_meta c w Hc Hcells).
    + exists cell. split; [done|]. unfold bind.
      by rewrite (isActiveCell_no_meta cell w Hm Hcells).
Qed.

(** ** Scrolling to a cell by its id *)




(** ** Destroying twice, and constructing then destroying *)

Lemma filter_all {A} (P : A -> Prop) `{!forall x, Decision (P x)}
    (l : list A) :
  (forall x, x ∈ l -> P x) -> filter P l = l.
Proof.
  induction l as [|x l IH]; intros Hall; [done|].
  rewrite filter_cons_True by apply Hall, list_elem_of_here.
  f_equal. apply IH. intros y Hy. by apply Hall, list_elem_of_further.
Qed.

(** [destroy], field by field. *)
Lemma destroy_fields w :
  destroy w
  = mkWorld (Some DefaultState) (options w) (facet w) (isHierarchyTreeType w)
      (trace w) (isMobile w)
      (filter (fun e => e ≠ ("visibilitychange"%string,
                             onTriggerInteractionsResetEffect))
              (listeners w))
      (match hoverTimer w with
       | Some timer => timers w ∖ {[ timer ]}
       | None => timers w
       end)
      [] ∅ (hoverTimer w) Cleared (defaultState w).
Proof.
  rewrite destroy_spec. unfold clearHoverTimer. cbn.
  destruct (hoverTimer w) eqn:Ht;
    unfold set_listeners, set_store, set_timers, set_eventController,
      set_intercepts, set_interactions; cbn; by rewrite Ht.
Qed.

(** X10: [destroy] on a destroyed interaction changes nothing more. *)
Theorem destroy_idempotent :
  forall (w : World), destroy (destroy w) = destroy w.
Proof.
  intros w. rewrite (destroy_fields (destroy w)).
  rewrite !(destroy_fields w).
  cbn [store options facet isHierarchyTreeType trace isMobile listeners
         timers interactions intercepts hoverTimer eventController
         defaultState].
  f_equal.
  - apply filter_all. intros e He. by apply list_elem_of_filter in He as [? _].
  - destruct (hoverTimer w); [set_solver|done].
Qed.

Lemma destroy_listeners w :
  listeners (destroy w)
  = filter (fun e => e ≠ ("visibilitychange"%string,
                          onTriggerInteractionsResetEffect))
      (listeners w).
Proof. by rewrite destroy_spec. Qed.

Lemma dispatchEvent_trace type w :
  trace (dispatchEvent type w)
  = trace w ++ flat_map (listener_calls type w) (listeners w).
Proof. by rewrite dispatchEvent_spec. Qed.

Lemma constructor_listeners `{HostEnv} w :
  ("visibilitychange"%string, onTriggerInteractionsResetEffect) ∉ listeners w ->
  listeners (constructor w)
  = listeners w
    ++ [("visibilitychange"%string, onTriggerInteractionsResetEffect)].
Proof.
  intros Hfresh. unfold constructor.
  set (w0 := registerEventController _).
  pose proof (registerInteractions_frame w0) as Hf.
  unfold beyond_handlers in Hf. injection Hf as _ _ _ _ _ Hl _ _ _ _ _.
  unfold addEventListener. rewrite Hl. cbn.
  by rewrite bool_decide_eq_false_2.
Qed.

(** X11: when the window does not yet hold the instance's listener,
    constructing and then destroying the interaction leaves the window's
    listeners exactly as they were. *)
Theorem constructor_destroy_listeners :
  forall (E : HostEnv) (w : World),
    ("visibilitychange"%string, onTriggerInteractionsResetEffect)
    ∉ listeners w ->
    listeners (destroy (constructor w)) = listeners w.
Proof.
  intros E w Hfresh. rewrite destroy_listeners.
  rewrite (constructor_listeners w Hfresh), filter_app.
  rewrite filter_all.
  - rewrite filter_cons_False, filter_nil by (intros Hne; by apply Hne).
    apply app_nil_r.
  - intros e He ->. by apply Hfresh.
Qed.

(** A new sheet, constructed and destroyed. *)
Lemma constructor_destroy_listeners_bare :
  listeners (destroy (constructor (H := modelEnv) Sample.bare))
  = listeners Sample.bare.
Proof.
  apply (constructor_destroy_listeners modelEnv Sample.bare).
  apply not_elem_of_nil.
Defined.

(** X12: when the window does not yet hold the instance's listener, a
    [visibilitychange] event after construction first reaches the foreign
    listeners and then resets every registered handler exactly once, in the
    order of registration. *)
Theorem visibilitychange_resets_each_handler_once :
  forall (E : HostEnv) (w : World),
    ("visibilitychange"%string, onTriggerInteractionsResetEffect)
    ∉ listeners w ->
    exists foreign,
      trace (dispatchEvent "visibilitychange" (constructor w))
      = trace (constructor w)
        ++ map ForeignListener foreign
        ++ map (fun handler => HandlerReset handler.1)
             (interactions (constructor w)).
Proof.
  intros E w Hfresh. rewrite dispatchEvent_trace.
  rewrite (constructor_listeners w Hfresh), flat_map_app.
  set (w' := constructor w).
  assert (Hown : flat_map (listener_calls "visibilitychange" w')
                   [("visibilitychange"%string,
                     onTriggerInteractionsResetEffect)]
                 = map (fun handler => HandlerReset handler.1)
                     (interactions w')).
  { cbn [flat_map]. rewrite app_nil_r. unfold listener_calls.
    by rewrite bool_decide_eq_true_2. }
  rewrite Hown.
  assert (Hforeign : forall entries,
             ("visibilitychange"%string, onTriggerInteractionsResetEffect)
             ∉ entries ->
             exists foreign,
               flat_map (listener_calls "visibilitychange" w') entries
               = map ForeignListener foreign).
  { induction entries as [|[t l] entries IH]; intros Hout.
    - by exists [].
    - apply not_elem_of_cons in Hout as [Hne Hout].
      destruct (IH Hout) as (foreign & Hrest). cbn. rewrite Hrest.
      unfold listener_calls. cbn. case_bool_decide as Ht.
      + destruct l as [|n]; [by subst|]. by exists (n :: foreign).
      + by exists foreign. }
  destruct (Hforeign (listeners w) Hfresh) as (foreign & ->).
  by exists foreign.
Qed.

(** The event on a new sheet. *)
Lemma visibilitychange_resets_each_handler_once_bare :
  exists foreign,
    trace (dispatchEvent "visibilitychange"
             (constructor (H := modelEnv) Sample.bare))
    = trace (constructor (H := modelEnv) Sample.bare)
      ++ map ForeignListener foreign
      ++ map (fun handler => HandlerReset handler.1)
           (interactions (constructor (H := modelEnv) Sample.bare)).
Proof.
  apply (visibilitychange_resets_each_handler_once modelEnv Sample.bare).
  apply not_elem_of_nil.
Defined.

(** ** Interacted cells *)

(** X13: provided the state controller, handed the state that is already
    current, leaves it current, [setInteractedCells] appends the cell to the
    list [getInteractedCells] answers, whether the current state is a stored
    object or the default state. *)
Theorem setInteractedCells_appends :
  forall (E : HostEnv) (cell : S2CellType.t) (w : World),
    (forall w', getState (controller_setState (getStateRef w') w')
                = getState w') ->
    getInteractedCells (setInteractedCells cell w)
    = getInteractedCells w ++ [cell].
Proof.
  intros E cell w Hctl. unfold setInteractedCells, setState.
  set (cells := getInteractedCells w ++ [cell]).
  unfold getInteractedCells at 1.
  destruct (getStateRef w) as [|s] eqn:Href; cbn.
  - set (w1 := set_defaultState _ w).
    assert (Href1 : getStateRef w1 = DefaultState) by exact Href.
    rewrite <- Href1, Hctl. unfold getState. rewrite Href1. done.
  - set (s' := InteractionStateInfo.with_interactedCells _ s).
    set (w1 := set_store _ w).
    assert (Href1 : getStateRef w1 = StateObject s') by reflexivity.
    rewrite <- Href1, Hctl. unfold getState. rewrite Href1. done.
Qed.

(** Two interacted cells on a new interaction, with the modelled state
    controller. *)
Lemma setInteractedCells_appends_fresh :
  getInteractedCells
    (setInteractedCells (H := modelEnv) Sample.cellA Sample.fresh)
  = getInteractedCells Sample.fresh ++ [Sample.cellA].
Proof.
  apply (setInteractedCells_appends modelEnv Sample.cellA Sample.fresh).
  intros w'. unfold getState, getStateRef. cbn.
  by destruct (store w').
Defined.

(** X14: provided the state controller leaves the instance's default-state
    object alone, interacted cells recorded while the default state is
    current are written into that object, so [resetState] does not forget
    them. *)
Theorem setInteractedCells_outlives_resetState :
  forall (E : HostEnv) (cell : S2CellType.t) (w : World),
    getStateRef w = DefaultState ->
    (forall r w', defaultState (controller_setState r w') = defaultState w') ->
    getInteractedCells (resetState (setInteractedCells cell w))
    = getInteractedCells w ++ [cell].
Proof.
  intros E cell w Href Hctl.
  pose proof (setInteractedCells_writes_defaultState cell w Href Hctl) as Hd.
  unfold getInteractedCells at 1. unfold getState, resetState. cbn.
  by rewrite Hd.
Qed.

(** On a new interaction. *)
Lemma setInteractedCells_outlives_resetState_fresh :
  getInteractedCells
    (resetState (setInteractedCells (H := modelEnv) Sample.cellA Sample.fresh))
  = getInteractedCells Sample.fresh ++ [Sample.cellA].
Proof.
  apply (setInteractedCells_outlives_resetState modelEnv Sample.cellA
           Sample.fresh eq_refl).
  intros r w'. reflexivity.
Defined.

(** ** The depth of [changeState] *)

Lemma changeStateN_guarded `{HostEnv} depth info w :
  default [] (InteractionStateInfo.cells info) = [] ->
  InteractionStateInfo.stateName info = Some InteractionStateName.SELECTED ->
  changeStateN (S (S depth)) info w
  = if truthy (InteractionStateInfo.force info)
    then Normal tt (changeState_apply unselected w)
    else Normal tt w.
Proof.
  intros Hcells Hname.
  change (changeStateN (S (S depth)) info w)
    with ((if bool_decide (default [] (InteractionStateInfo.cells info) = [])
              && bool_decide (InteractionStateInfo.stateName info
                              = Some InteractionStateName.SELECTED)
           then
             if truthy (InteractionStateInfo.force info)
             then bind (changeStateN (S depth) unselected) (fun _ => ret tt)
             else ret tt
           else run (changeState_apply info)) w).
  rewrite !bool_decide_eq_true_2 by done. cbn [andb].
  destruct (truthy (InteractionStateInfo.force info)); [|done].
  unfold bind. by rewrite changeStateN_unguarded by (right; discriminate).
Qed.

(** X15: [changeState] never needs more than one nested call: at every
    depth of at least two it completes and gives the same result.  When the
    state has cells, or a name other than SELECTED, it makes no nested call
    and the last thing it does is redraw. *)
Theorem changeState_depth :
  forall (E : HostEnv) (info : InteractionStateInfo.t) (w : World)
         (depth : nat),
    changeStateN (S (S depth)) info w = changeState info w
    /\ (exists w', changeState info w = Normal tt w')
    /\ (default [] (InteractionStateInfo.cells info) <> []
        \/ InteractionStateInfo.stateName info
           <> Some InteractionStateName.SELECTED ->
        exists w',
          changeStateN 1 info w = Normal tt (draw w')
          /\ changeState info w = Normal tt (draw w')).
Proof.
  intros E info w depth. split; [|split].
  - unfold changeState.
    destruct (decide (default [] (InteractionStateInfo.cells info) = []))
      as [Hcells|Hcells];
      [destruct (decide (InteractionStateInfo.stateName info
                         = Some InteractionStateName.SELECTED))
         as [Hname|Hname]|].
    + by rewrite !changeStateN_guarded by done.
    + by rewrite !changeStateN_unguarded by (by right).
    + by rewrite !changeStateN_unguarded by (by left).
  - apply changeState_completes.
  - intros Hguard. unfold changeState.
    rewrite !changeStateN_unguarded by done.
    unfold changeState_apply. by eexists.
Qed.

(** ** Registering the handlers *)

(** [enable !== false] *)
Definition enabled {A} (enable : Switch A) : bool :=
  match enable with
  | Flag false => false
  | _ => true
  end.

(** The classes [registerInteractions] instantiates, in order. *)
Definition constructed_classes `{HostEnv} (w : World) : list InteractionClass :=
  flat_map (fun entry : InteractionName.t * InteractionClass * Switch unit =>
              if enabled entry.2 then [entry.1.2] else [])
           (getDefaultInteractions w)
  ++ map CustomInteraction.interaction
       (default [] (InteractionOptions.customInteractions (options w))).

Lemma forEach_invariant {A} (P : World -> Prop) (f : A -> World -> World)
    xs w :
  P w ->
  (forall a, a ∈ xs -> forall w', P w' -> P (f a w')) ->
  P (forEach f xs w).
Proof.
  revert w. induction xs as [|x xs IH]; intros w Hw Hf; [done|].
  rewrite forEach_cons. apply IH.
  - apply Hf; [apply list_elem_of_here|done].
  - intros a Ha. by apply Hf, list_elem_of_further.
Qed.

Lemma forEach_trace {A} (f : A -> World -> World) (g : A -> list Effect)
    xs w :
  (forall a w', trace (f a w') = trace w' ++ g a) ->
  trace (forEach f xs w) = trace w ++ flat_map g xs.
Proof.
  intros Hf. revert w. induction xs as [|x xs IH]; intros w.
  - cbn. by rewrite app_nil_r.
  - rewrite forEach_cons, IH, Hf. cbn. by rewrite <- app_assoc.
Qed.

Lemma map_set_keys {V} (k : string) (v : V) m k' :
  k' ∈ (map_set k v m).*1 <-> k' = k \/ k' ∈ m.*1.
Proof.
  induction m as [|[k0 v0] m IH]; cbn.
  - set_solver.
  - destruct (decide (k = k0)) as [->|Hne]; cbn; set_solver.
Qed.

Lemma map_set_NoDup {V} (k : string) (v : V) m :
  NoDup m.*1 -> NoDup (map_set k v m).*1.
Proof.
  induction m as [|[k0 v0] m IH]; cbn; intros Hnd.
  - apply NoDup_singleton.
  - apply NoDup_cons in Hnd as [Hk0 Hnd].
    destruct (decide (k = k0)) as [->|Hne]; cbn.
    + by apply NoDup_cons.
    + apply NoDup_cons. split; [|by apply IH].
      rewrite map_set_keys. intros [?|?]; [congruence|done].
Qed.

Lemma map_set_elem {V} (k : string) (v : V) m :
  (k, v) ∈ map_set k v m.
Proof.
  induction m as [|[k0 v0] m IH]; cbn.
  - apply list_elem_of_here.
  - destruct (decide (k = k0)); [apply list_elem_of_here|].
    by apply list_elem_of_further.
Qed.

Lemma map_set_other {V} (k k' : string) (v v' : V) m :
  k' <> k -> (k', v') ∈ m -> (k', v') ∈ map_set k v m.
Proof.
  intros Hne. induction m as [|[k0 v0] m IH]; cbn; intros Hin.
  - by apply elem_of_nil in Hin.
  - apply elem_of_cons in Hin as [[= <- <-]|Hin].
    + rewrite decide_False by done. apply list_elem_of_here.
    + destruct (decide (k = k0)); apply list_elem_of_further; [done|].
      by apply IH.
Qed.

(** The step [registerInteractions] takes for one default handler. *)
Definition register_default `{HostEnv}
    (entry : InteractionName.t * InteractionClass * Switch unit)
  : World -> World :=
  let '(key, Interaction, enable) := entry in
  fun w =>
    match enable with
    | Flag false => w
    | _ => register (InteractionName_value key) Interaction w
    end.

Lemma registerInteractions_unfold `{HostEnv} w :
  registerInteractions w
  = forEach (fun c =>
               register (CustomInteraction.key c)
                 (CustomInteraction.interaction c))
      (default [] (InteractionOptions.customInteractions (options w)))
      (forEach register_default (getDefaultInteractions w)
         (set_interactions [] w)).
Proof.
  unfold registerInteractions.
  change (getDefaultInteractions (set_interactions [] w))
    with (getDefaultInteractions w).
  change (fun '(key, Interaction, enable) (w0 : World) =>
            match enable with
            | Flag false => w0
            | _ => register (InteractionName_value key) Interaction w0
            end) with register_default.
  by destruct (InteractionOptions.customInteractions (options w)) as [[|]|].
Qed.

Lemma register_default_interactions `{HostEnv} entry w :
  interactions (register_default entry w)
  = if enabled entry.2
    then map_set (InteractionName_value entry.1.1) entry.1.2 (interactions w)
    else interactions w.
Proof. by destruct entry as [[key cls] [|[]|]]. Qed.

Lemma register_default_trace `{HostEnv} entry w :
  trace (register_default entry w)
  = trace w ++ map Construct (if enabled entry.2 then [entry.1.2] else []).
Proof.
  destruct entry as [[key cls] [|[]|]]; cbn; by rewrite ?app_nil_r.
Qed.

Lemma flat_map_map_Construct {A} (g : A -> list InteractionClass) xs :
  flat_map (fun a => map Construct (g a)) xs = map Construct (flat_map g xs).
Proof.
  induction xs as [|x xs IH]; cbn; [done|]. by rewrite IH, map_app.
Qed.

Lemma registerInteractions_trace `{HostEnv} w :
  trace (registerInteractions w)
  = trace w ++ map Construct (constructed_classes w).
Proof.
  rewrite registerInteractions_unfold.
  rewrite (forEach_trace _
             (fun c => [Construct (CustomInteraction.interaction c)]))
    by done.
  rewrite (forEach_trace _
             (fun entry => map Construct
                             (if enabled entry.2 then [entry.1.2] else [])))
    by apply register_default_trace.
  unfold constructed_classes.
  rewrite flat_map_map_Construct, map_app, <- app_assoc. do 2 f_equal.
  generalize (default [] (InteractionOptions.customInteractions (options w))).
  intros cs. induction cs as [|c cs IH]; cbn; by rewrite ?IH.
Qed.

Lemma registerInteractions_NoDup `{HostEnv} w :
  NoDup (interactions (registerInteractions w)).*1.
Proof.
  rewrite registerInteractions_unfold.
  apply (forEach_invariant (fun w' => NoDup (interactions w').*1)).
  - apply (forEach_invariant (fun w' => NoDup (interactions w').*1)).
    + apply NoDup_nil_2.
    + intros entry _ w' Hnd. rewrite register_default_interactions.
      destruct (enabled entry.2); [by apply map_set_NoDup|done].
  - intros c _ w' Hnd. by apply map_set_NoDup.
Qed.

(** X16: after [registerInteractions] no key is registered twice; what was
    registered before the call has no influence on the result; and each
    custom interaction that is the last one of its key is registered under
    that key with its own class, also when a default handler has the same
    key. *)
Theorem registerInteractions_keys :
  forall (E : HostEnv) (w : World),
    NoDup (interactions (registerInteractions w)).*1
    /\ (forall handlers,
          registerInteractions (set_interactions handlers w)
          = registerInteractions w)
    /\ (forall pre c post,
          InteractionOptions.customInteractions (options w)
          = Some (pre ++ c :: post) ->
          CustomInteraction.key c ∉ map CustomInteraction.key post ->
          (CustomInteraction.key c, CustomInteraction.interaction c)
          ∈ interactions (registerInteractions w)).
Proof.
  intros E w. split; [apply registerInteractions_NoDup|]. split; [done|].
  intros pre c post Hcustom Hlast.
  rewrite registerInteractions_unfold, Hcustom. cbn [default from_option id].
  rewrite forEach_app, forEach_cons.
  set (w1 := forEach _ pre _).
  apply (forEach_invariant
           (fun w' =>
              (CustomInteraction.key c, CustomInteraction.interaction c)
              ∈ interactions w')).
  - apply map_set_elem.
  - intros c' Hc' w' Hin. apply map_set_other; [|done].
    intros Heq. apply Hlast. rewrite Heq. by apply list_elem_of_fmap_2.
Qed.

(** A sheet shown on a mobile device, with two custom interactions: a class
    of the application's own, and the built-in hover handler. *)
Definition mobileSheet : World :=
  mkWorld None
    (InteractionOptions.mk (Flag true) (Flag true) (Flag true) (Flag true)
       (Flag true)
       (Some [CustomInteraction.mk "zoom" (CustomClass "PinchZoom");
             CustomInteraction.mk "hover" HoverEvent])
       Absent Absent)
    Sample.sampleFacet false [] true [] ∅ [] ∅ None Cleared
    initialDefaultState.

(** X17: on a mobile device [registerInteractions] instantiates the five
    click handlers and then the class of each custom interaction, in this
    order, and nothing else, whatever the interaction options say. *)
Theorem registerInteractions_on_mobile :
  forall (E : HostEnv) (w : World),
    isMobile w = true ->
    trace (registerInteractions w)
    = trace w
      ++ map Construct
           [CornerCellClick; DataCellClick; RowColumnClick; RowTextClick;
            MergedCellClick]
      ++ map (fun c => Construct (CustomInteraction.interaction c))
           (default []
              (InteractionOptions.customInteractions (options w))).
Proof.
  intros E w Hmobile. rewrite registerInteractions_trace.
  unfold constructed_classes, getDefaultInteractions, unless_mobile.
  rewrite Hmobile. cbn [negb flat_map enabled fst snd app map].
  by rewrite map_map.
Qed.

(** The mobile sheet, all options switched on. *)
Lemma registerInteractions_on_mobile_sheet :
  trace (registerInteractions (H := modelEnv) mobileSheet)
  = trace mobileSheet
    ++ map Construct
         [CornerCellClick; DataCellClick; RowColumnClick; RowTextClick;
          MergedCellClick]
    ++ map (fun c => Construct (CustomInteraction.interaction c))
         (default []
            (InteractionOptions.customInteractions (options mobileSheet))).
Proof.
  apply (registerInteractions_on_mobile modelEnv mobileSheet). reflexivity.
Defined.

Lemma elem_of_if_singleton {A} (b : bool) (x y : A) :
  x ∈ (if b then [y] else []) <-> b = true /\ x = y.
Proof. destruct b; set_solver. Qed.

Lemma enabled_true {A} (v : Switch A) : enabled v = true <-> v <> Flag false.
Proof. destruct v as [|[]|]; cbn; split; done. Qed.

Lemma enabled_unless_mobile {A} w (v : Switch A) :
  enabled (unless_mobile w v) = true
  <-> isMobile w = false /\ v <> Flag false.
Proof.
  unfold unless_mobile. destruct (isMobile w); cbn.
  - split; [done|by intros [? _]].
  - rewrite enabled_true. tauto.
Qed.

Lemma enabled_of_boolean_brush w (v : option bool) :
  is_Some v ->
  enabled (unless_mobile w (of_boolean v)) = true
  <-> isMobile w = false /\ v = Some true.
Proof.
  intros [b ->]. rewrite enabled_unless_mobile. cbn.
  destruct b; split; intros [? ?]; split; congruence.
Qed.

Lemma getBrushSelectionInfo_defined brushSelection :
  let info := getBrushSelectionInfo brushSelection in
  is_Some (BrushSelectionInfo.dataCellBrushSelection info)
  /\ is_Some (BrushSelectionInfo.rowCellBrushSelection info)
  /\ is_Some (BrushSelectionInfo.colCellBrushSelection info).
Proof.
  destruct brushSelection as [|?|[[?|] [?|] [?|]]]; cbn; eauto.
Qed.

(** X18: which handlers [registerInteractions] instantiates.  It first
    instantiates default handlers and then the class of every custom
    interaction, in order.  Among the default handlers are the five click
    handlers always; the hover handler exactly off mobile; the resize,
    multi-selection, range-selection and selected-cell-move handlers
    exactly off mobile and unless their option is [false], so also when the
    option is missing; each brush-selection handler exactly off mobile and
    when its brush-selection flag is [true], so not when the option is
    missing; and never a class of the application's own.  A custom
    interaction may name any class, so a handler switched off as a default
    is still instantiated when a custom interaction holds it. *)
Theorem registerInteractions_enabled :
  forall (E : HostEnv) (w : World),
    let o := options w in
    let info := getBrushSelectionInfo (InteractionOptions.brushSelection o) in
    let customs := default [] (InteractionOptions.customInteractions o) in
    exists defaults,
      trace (registerInteractions w)
      = trace w ++ map Construct defaults
        ++ map (fun c => Construct (CustomInteraction.interaction c)) customs
      /\ (forall cls,
            cls ∈ [CornerCellClick; DataCellClick; RowColumnClick;
                   RowTextClick; MergedCellClick] ->
            cls ∈ defaults)
      /\ (HoverEvent ∈ defaults <-> isMobile w = false)
      /\ (RowColumnResize ∈ defaults
          <-> isMobile w = false /\ InteractionOptions.resize o <> Flag false)
      /\ (DataCellMultiSelection ∈ defaults
          <-> isMobile w = false
              /\ InteractionOptions.multiSelection o <> Flag false)
      /\ (RangeSelection ∈ defaults
          <-> isMobile w = false
              /\ InteractionOptions.rangeSelection o <> Flag false)
      /\ (SelectedCellMove ∈ defaults
          <-> isMobile w = false
              /\ InteractionOptions.selectedCellMove o <> Flag false)
      /\ (DataCellBrushSelection ∈ defaults
          <-> isMobile w = false
              /\ BrushSelectionInfo.dataCellBrushSelection info = Some true)
      /\ (RowCellBrushSelection ∈ defaults
          <-> isMobile w = false
              /\ BrushSelectionInfo.rowCellBrushSelection info = Some true)
      /\ (ColCellBrushSelection ∈ defaults
          <-> isMobile w = false
              /\ BrushSelectionInfo.colCellBrushSelection info = Some true)
      /\ (forall name, CustomClass name ∉ defaults)
      /\ (forall cls,
            Construct cls ∈ trace (registerInteractions w) ->
            Construct cls ∈ trace w \/ cls ∈ defaults
            \/ exists c, c ∈ customs /\ CustomInteraction.interaction c = cls).
Proof.
  intros E w o info customs.
  exists (flat_map
            (fun entry : InteractionName.t * InteractionClass * Switch unit =>
               if enabled entry.2 then [entry.1.2] else [])
            (getDefaultInteractions w)).
  assert (Htrace :
            trace (registerInteractions w)
            = trace w
              ++ map Construct
                   (flat_map
                      (fun entry : InteractionName.t * InteractionClass
                                   * Switch unit =>
                         if enabled entry.2 then [entry.1.2] else [])
                      (getDefaultInteractions w))
              ++ map (fun c => Construct (CustomInteraction.interaction c))
                   customs).
  { rewrite registerInteractions_trace. unfold constructed_classes.
    by rewrite map_app, map_map. }
  split; [exact Htrace|].
  destruct (getBrushSelectionInfo_defined (InteractionOptions.brushSelection o))
    as (Hdata & Hrow & Hcol).
  fold info in Hdata, Hrow, Hcol.
  pose proof (enabled_of_boolean_brush w _ Hdata) as Edata.
  pose proof (enabled_of_boolean_brush w _ Hrow) as Erow.
  pose proof (enabled_of_boolean_brush w _ Hcol) as Ecol.
  pose proof (enabled_unless_mobile w (InteractionOptions.resize o)) as Eresize.
  pose proof (enabled_unless_mobile w (InteractionOptions.multiSelection o))
    as Emulti.
  pose proof (enabled_unless_mobile w (InteractionOptions.rangeSelection o))
    as Erange.
  pose proof (enabled_unless_mobile w (InteractionOptions.selectedCellMove o))
    as Emove.
  assert (Ehover : enabled (Flag (A := unit) (negb (isMobile w))) = true
                   <-> isMobile w = false).
  { by destruct (isMobile w). }
  assert (Hin : forall cls,
             cls ∈ flat_map
                     (fun entry : InteractionName.t * InteractionClass
                                  * Switch unit =>
                        if enabled entry.2 then [entry.1.2] else [])
                     (getDefaultInteractions w)
             <-> cls ∈ [CornerCellClick; DataCellClick; RowColumnClick;
                        RowTextClick; MergedCellClick]
                 \/ (isMobile w = false /\ cls = HoverEvent)
                 \/ ((isMobile w = false
                      /\ BrushSelectionInfo.dataCellBrushSelection info
                         = Some true)
                     /\ cls = DataCellBrushSelection)
                 \/ ((isMobile w = false
                      /\ BrushSelectionInfo.rowCellBrushSelection info
                         = Some true)
                     /\ cls = RowCellBrushSelection)
                 \/ ((isMobile w = false
                      /\ BrushSelectionInfo.colCellBrushSelection info
                         = Some true)
                     /\ cls = ColCellBrushSelection)
                 \/ ((isMobile w = false
                      /\ InteractionOptions.resize o <> Flag false)
                     /\ cls = RowColumnResize)
                 \/ ((isMobile w = false
                      /\ InteractionOptions.multiSelection o <> Flag false)
                     /\ cls = DataCellMultiSelection)
                 \/ ((isMobile w = false
                      /\ InteractionOptions.rangeSelection o <> Flag false)
                     /\ cls = RangeSelection)
                 \/ ((isMobile w = false
                      /\ InteractionOptions.selectedCellMove o <> Flag false)
                     /\ cls = SelectedCellMove)).
  { intros cls. unfold getDefaultInteractions.
    fold o. fold info. cbn [flat_map fst snd enabled app].
    rewrite !elem_of_cons, !elem_of_app, !elem_of_if_singleton, elem_of_nil.
    rewrite Ehover, Edata, Erow, Ecol, Eresize, Emulti, Erange, Emove.
    clear. naive_solver. }
  clear Edata Erow Ecol Eresize Emulti Erange Emove Ehover Hdata Hrow Hcol.
  split; [|split; [|split; [|split; [|split; [|split; [|split; [|split;
    [|split; [|split]]]]]]]]].
  - intros cls Hcls. apply Hin. by left.
  - rewrite Hin, !elem_of_cons, elem_of_nil. clear. naive_solver.
  - rewrite Hin, !elem_of_cons, elem_of_nil. clear. naive_solver.
  - rewrite Hin, !elem_of_cons, elem_of_nil. clear. naive_solver.
  - rewrite Hin, !elem_of_cons, elem_of_nil. clear. naive_solver.
  - rewrite Hin, !elem_of_cons, elem_of_nil. clear. naive_solver.
  - rewrite Hin, !elem_of_cons, elem_of_nil. clear. naive_solver.
  - rewrite Hin, !elem_of_cons, elem_of_nil. clear. naive_solver.
  - rewrite Hin, !elem_of_cons, elem_of_nil. clear. naive_solver.
  - intros name. rewrite Hin, !elem_of_cons, elem_of_nil. clear.
    naive_solver.
  - intros cls. rewrite Htrace, !elem_of_app, !list_elem_of_fmap.
    intros [?|[(cls' & [= ->] & ?)|(c & [= ->] & ?)]]; [by left| |].
    + right. by left.
    + right. right. by exists c.
Qed.

(** On the mobile sheet the hover handler is no default handler and is
    instantiated all the same, for the custom interaction that holds it. *)
Lemma registerInteractions_custom_hover_on_mobile :
  isMobile mobileSheet = true
  /\ Construct HoverEvent
     ∈ trace (registerInteractions (H := modelEnv) mobileSheet).
Proof.
  split; [reflexivity|].
  rewrite registerInteractions_trace. apply elem_of_app. right.
  apply list_elem_of_fmap_2. unfold constructed_classes.
  apply elem_of_app. right. cbn. set_solver.
Qed.
